(** * gemm_hls host harness: [host/RunHardware.cpp]

    A shallow embedding of the host program that drives the matrix
    multiplication kernel: command line handling, host memory set-up,
    the OpenCL session inside the [try] block, and the verification
    loop against the reference implementation.

    The headers [MatrixMultiplication.h] and [Utility.h] fix the element
    type [Data_t], the sizes [kSizeN], [kSizeK], [kSizeM],
    [kMemoryWidth], the seed [kSeed] and the helpers [Pack], [Unpack]
    and [ReferenceImplementation].  The element type and the constants
    are parameters of the development; the three helpers are modelled
    from the specification and marked as such. *)

From Stdlib Require Import ZArith List String Lia SpecFloat.
From stdpp Require Import gmap strings list.

Local Open Scope Z_scope.

(** ** IEEE 754 binary formats *)

Module Float.

(** [float] is binary32 and [double] is binary64; both are carried by
    [spec_float], the format being fixed by the operations used. *)
Definition prec32 : Z := 24.
Definition emax32 : Z := 128.
Definition prec64 : Z := 53.
Definition emax64 : Z := 1024.

(** Conversion of an integer to a format, rounding to nearest even. *)
Definition of_Z (prec emax : Z) (z : Z) : spec_float :=
  binary_normalize prec emax z 0 false.

(** Conversion between formats: exact when widening, rounding to
    nearest even when narrowing. *)
Definition convert (prec emax : Z) (x : spec_float) : spec_float :=
  match x with
  | S754_finite s m e => binary_round prec emax s m e
  | _ => x
  end.

Definition to_float : spec_float -> spec_float := convert prec32 emax32.
Definition to_double : spec_float -> spec_float := convert prec64 emax64.

(** A decimal literal [1e-k] of type [double]: the double nearest to
    [1 / 10^k], which is the correctly rounded quotient of the two
    exactly representable integers. *)
Definition lit_pow10_neg (k : Z) : spec_float :=
  SFdiv prec64 emax64 (of_Z prec64 emax64 1) (of_Z prec64 emax64 (10 ^ k)).

Definition lit_1e_3 : spec_float := Eval vm_compute in lit_pow10_neg 3.
Definition lit_1e_9 : spec_float := Eval vm_compute in lit_pow10_neg 9.

(** Conversion of a floating value to an integer: truncation toward
    zero.  [None] for infinities and NaN. *)
Definition trunc (x : spec_float) : option Z :=
  match x with
  | S754_zero _ => Some 0
  | S754_finite s m e =>
      let a := match e with
               | Z0 => Zpos m
               | Zpos _ => Z.shiftl (Zpos m) e
               | Zneg _ => Z.shiftr (Zpos m) (- e)
               end in
      Some (if s then - a else a)
  | _ => None
  end.

End Float.

(** ** Integer element types *)

(** A fixed width integer type: its width in bits and its signedness. *)
Record int_type := IntType { it_bits : Z; it_signed : bool }.

Definition it_min (it : int_type) : Z :=
  if it_signed it then - 2 ^ (it_bits it - 1) else 0.

Definition it_max (it : int_type) : Z :=
  if it_signed it then 2 ^ (it_bits it - 1) - 1 else 2 ^ it_bits it - 1.

Definition in_range (it : int_type) (z : Z) : bool :=
  (it_min it <=? z) && (z <=? it_max it).

Definition int_ : int_type := IntType 32 true.
Definition long_ : int_type := IntType 64 true.
Definition unsigned_long_ : int_type := IntType 64 false.
Definition unsigned_char_ : int_type := IntType 8 false.
Definition short_ : int_type := IntType 16 true.

(** Integral promotion: a type narrower than [int] is promoted to
    [int], which represents all of its values; other types are kept. *)
Definition promote (it : int_type) : int_type :=
  if it_bits it <? 32 then int_ else it.

(** Conversion to an integer type from a wider integer: reduction
    modulo [2 ^ bits], read in two's complement for signed types. *)
Definition wrap (it : int_type) (z : Z) : Z :=
  let m := 2 ^ it_bits it in
  let r := z mod m in
  if it_signed it && (it_max it <? r) then r - m else r.

(** ** The element type [Data_t] *)

(** What the harness needs of [Data_t].  [None] stands for an operation
    whose behaviour C++ leaves undefined at the given operands. *)
Class DataType (T : Type) := {
  (** [std::is_integral<Data_t>::value], which selects the distribution *)
  dt_is_integral : bool;
  (** [result_type] of the selected distribution *)
  dt_sample : Type;
  (** [Data_t(x)] for [x] drawn from the distribution *)
  dt_of_sample : dt_sample -> T;
  (** the initial value [0] of [cRef] *)
  dt_zero : T;
  (** type of [testVal - refVal] after the usual arithmetic conversions *)
  dt_prom : Type;
  (** [testVal - refVal] *)
  dt_minus : T -> T -> option dt_prom;
  (** [std::abs] at the promoted type *)
  dt_abs : dt_prom -> option dt_prom;
  (** [static_cast<Data_t>(x)] for a [double] *)
  dt_of_double : spec_float -> option T;
  (** [diff > eps], comparing a promoted value with a [Data_t] *)
  dt_gt : dt_prom -> T -> bool;
  (** [+] and [*] followed by the store into a [Data_t] *)
  dt_add : T -> T -> T;
  dt_mul : T -> T -> T
}.

Definition float_DataType : DataType spec_float := {|
  dt_is_integral := false;
  dt_sample := spec_float;
  dt_of_sample := Float.to_float;
  dt_zero := S754_zero false;
  dt_prom := spec_float;
  dt_minus := fun x y => Some (SFsub Float.prec32 Float.emax32 x y);
  dt_abs := fun d => Some (SFabs d);
  dt_of_double := fun d => Some (Float.to_float d);
  dt_gt := fun d e => SFltb e d;
  dt_add := SFadd Float.prec32 Float.emax32;
  dt_mul := SFmul Float.prec32 Float.emax32
|}.

Definition double_DataType : DataType spec_float := {|
  dt_is_integral := false;
  dt_sample := spec_float;
  dt_of_sample := fun d => d;
  dt_zero := S754_zero false;
  dt_prom := spec_float;
  dt_minus := fun x y => Some (SFsub Float.prec64 Float.emax64 x y);
  dt_abs := fun d => Some (SFabs d);
  dt_of_double := fun d => Some d;
  dt_gt := fun d e => SFltb e d;
  dt_add := SFadd Float.prec64 Float.emax64;
  dt_mul := SFmul Float.prec64 Float.emax64
|}.

(** An integer [Data_t].  The operands of [-] are promoted; at a signed
    promoted type a result out of range is undefined, at an unsigned
    one it wraps around.  [std::abs] has overloads for [int], [long]
    and [long long] only, and is undefined at the least value.  Sums
    and products are reduced to the width of the type when stored. *)
Definition int_minus (it : int_type) (x y : Z) : option Z :=
  let p := promote it in
  if it_signed p then
    if in_range p (x - y) then Some (x - y) else None
  else Some ((x - y) mod 2 ^ it_bits p).

Definition int_abs (it : int_type) (d : Z) : option Z :=
  let p := promote it in
  if it_signed p then
    if d =? it_min p then None else Some (Z.abs d)
  else None.

Definition int_of_double (it : int_type) (d : spec_float) : option Z :=
  match Float.trunc d with
  | Some z => if in_range it z then Some z else None
  | None => None
  end.

Definition int_DataType (it : int_type) : DataType Z := {|
  dt_is_integral := true;
  dt_sample := Z;
  dt_of_sample := wrap it;
  dt_zero := 0;
  dt_prom := Z;
  dt_minus := int_minus it;
  dt_abs := int_abs it;
  dt_of_double := int_of_double it;
  dt_gt := fun d e => e <? d;
  dt_add := fun x y => wrap it (x + y);
  dt_mul := fun x y => wrap it (x * y)
|}.

Local Close Scope Z_scope.

(** ** Memory packing *)

Section Packing.
Context {T : Type}.

(** A memory pack holds [kMemoryWidth] consecutive elements. *)
Definition MemoryPack_t : Type := list T.

(** Modelled from the spec: [Pack] of [Utility.h].  Pack [i] holds
    the elements [i*W .. (i+1)*W - 1] of the operand in their order,
    and an operand of length [L] gives [L / W] packs. *)
Definition Pack (W : nat) (x : list T) : list MemoryPack_t :=
  map (fun i => take W (drop (i * W) x)) (seq 0 (length x / W)).

(** Modelled from the spec: [Unpack] of [Utility.h].  The packs are
    flattened into one sequence, in order. *)
Definition Unpack (packs : list MemoryPack_t) : list T :=
  concat packs.

End Packing.

(** ** The accelerator runtime *)

(** Exceptions: [std::runtime_error] carries its [what()] message; any
    other exception type is not named by the handler of [main]. *)
Inductive exn :=
| runtime_error (what : string)
| other_exception.

Inductive result (A : Type) :=
| Ok (x : A)
| Raise (e : exn).
Arguments Ok {A} x.
Arguments Raise {A} e.

Inductive Access := read | write.
Inductive MemoryBank := bank0 | bank1.

(** The three device buffers of [main]. *)
Inductive Buffer := aDevice | bDevice | cDevice.

(** Pieces written to a stream by [<<]. *)
Inductive chunk (T : Type) :=
| Str (s : string)
| Int (n : nat)
| Dbl (x : spec_float)
| Val (x : T).
Arguments Str {T} s.
Arguments Int {T} n.
Arguments Dbl {T} x.
Arguments Val {T} x.

(** What a run does: changes of the environment, writes to the streams,
    calls of the host helpers, calls into the runtime, and the
    exceptions the runtime raises. *)
Inductive action (T : Type) :=
| UnsetEnvironmentVariable (name : string)
| SetEnvironmentVariable (name value : string)
| Cout (c : chunk T)
| Cerr (c : chunk T)
| CallDist
| CallPack
| CallUnpack
| CallReferenceImplementation
| NewContext
| MakeProgram (path : string)
| MakeBuffer (buf : Buffer) (acc : Access) (bank : MemoryBank) (n : nat)
| CopyFromHost (dst : Buffer) (data : list (list T))
| MakeKernel (name : string) (args : list Buffer)
| ExecuteTask (da db dc : list (list T))
| CopyToHost (src : Buffer)
| Raised (e : exn).
Arguments UnsetEnvironmentVariable {T} name.
Arguments SetEnvironmentVariable {T} name value.
Arguments Cout {T} c.
Arguments Cerr {T} c.
Arguments CallDist {T}.
Arguments CallPack {T}.
Arguments CallUnpack {T}.
Arguments CallReferenceImplementation {T}.
Arguments NewContext {T}.
Arguments MakeProgram {T} path.
Arguments MakeBuffer {T} buf acc bank n.
Arguments CopyFromHost {T} dst data.
Arguments MakeKernel {T} name args.
Arguments ExecuteTask {T} da db dc.
Arguments CopyToHost {T} src.
Arguments Raised {T} e.

(** The behaviour of the runtime ([hlslib/SDAccel.h]) during one run.
    Each call either succeeds or raises.  A fresh buffer holds
    unspecified elements, given by pack index and lane; the kernel
    leaves unspecified elements in the output buffer and reports a
    pair of times. *)
Record Runtime (T : Type) := {
  rt_Context : result unit;
  rt_MakeProgram : string -> result unit;
  rt_MakeBuffer : Buffer -> result (nat -> nat -> T);
  rt_CopyFromHost : Buffer -> result unit;
  rt_MakeKernel : result unit;
  rt_ExecuteTask :
    list (list T) -> list (list T) -> list (list T) ->
    result (spec_float * spec_float * (nat -> nat -> T));
  rt_CopyToHost : result unit
}.
Arguments rt_Context {T} r.
Arguments rt_MakeProgram {T} r path.
Arguments rt_MakeBuffer {T} r buf.
Arguments rt_CopyFromHost {T} r buf.
Arguments rt_MakeKernel {T} r.
Arguments rt_ExecuteTask {T} r da db dc.
Arguments rt_CopyToHost {T} r.

(** ** Program state *)

Module St.
(** The process environment, the trace of actions so far with the
    most recent one first, and the variables of [main] under their
    names in the source.  The device buffers stand for the contents
    of the memory they own. *)
Record state (T Rng : Type) := mk {
  environ : gmap string string;
  trace : list (action T);
  rng : Rng;
  emulation : bool;
  verify : bool;
  path : string;
  a : list T;
  b : list T;
  cRef : list T;
  aMem : list (list T);
  bMem : list (list T);
  cMem : list (list T);
  aDev : list (list T);
  bDev : list (list T);
  cDev : list (list T)
}.
Arguments mk {T Rng}.
Arguments environ {T Rng} s.
Arguments trace {T Rng} s.
Arguments rng {T Rng} s.
Arguments emulation {T Rng} s.
Arguments verify {T Rng} s.
Arguments path {T Rng} s.
Arguments a {T Rng} s.
Arguments b {T Rng} s.
Arguments cRef {T Rng} s.
Arguments aMem {T Rng} s.
Arguments bMem {T Rng} s.
Arguments cMem {T Rng} s.
Arguments aDev {T Rng} s.
Arguments bDev {T Rng} s.
Arguments cDev {T Rng} s.

Section Setters.
Context {T Rng : Type}.
Implicit Type s : state T Rng.

Definition set_environ v s : state T Rng :=
  let '(mk _ tr g em ve pa a b cr am bm cm ad bd cd) := s in
  mk v tr g em ve pa a b cr am bm cm ad bd cd.
Definition set_trace v s : state T Rng :=
  let '(mk en _ g em ve pa a b cr am bm cm ad bd cd) := s in
  mk en v g em ve pa a b cr am bm cm ad bd cd.
Definition set_rng v s : state T Rng :=
  let '(mk en tr _ em ve pa a b cr am bm cm ad bd cd) := s in
  mk en tr v em ve pa a b cr am bm cm ad bd cd.
Definition set_emulation v s : state T Rng :=
  let '(mk en tr g _ ve pa a b cr am bm cm ad bd cd) := s in
  mk en tr g v ve pa a b cr am bm cm ad bd cd.
Definition set_verify v s : state T Rng :=
  let '(mk en tr g em _ pa a b cr am bm cm ad bd cd) := s in
  mk en tr g em v pa a b cr am bm cm ad bd cd.
Definition set_path v s : state T Rng :=
  let '(mk en tr g em ve _ a b cr am bm cm ad bd cd) := s in
  mk en tr g em ve v a b cr am bm cm ad bd cd.
Definition set_a v s : state T Rng :=
  let '(mk en tr g em ve pa _ b cr am bm cm ad bd cd) := s in
  mk en tr g em ve pa v b cr am bm cm ad bd cd.
Definition set_b v s : state T Rng :=
  let '(mk en tr g em ve pa a _ cr am bm cm ad bd cd) := s in
  mk en tr g em ve pa a v cr am bm cm ad bd cd.
Definition set_cRef v s : state T Rng :=
  let '(mk en tr g em ve pa a b _ am bm cm ad bd cd) := s in
  mk en tr g em ve pa a b v am bm cm ad bd cd.
Definition set_aMem v s : state T Rng :=
  let '(mk en tr g em ve pa a b cr _ bm cm ad bd cd) := s in
  mk en tr g em ve pa a b cr v bm cm ad bd cd.
Definition set_bMem v s : state T Rng :=
  let '(mk en tr g em ve pa a b cr am _ cm ad bd cd) := s in
  mk en tr g em ve pa a b cr am v cm ad bd cd.
Definition set_cMem v s : state T Rng :=
  let '(mk en tr g em ve pa a b cr am bm _ ad bd cd) := s in
  mk en tr g em ve pa a b cr am bm v ad bd cd.
Definition set_dev (buf : Buffer) v s : state T Rng :=
  let '(mk en tr g em ve pa a b cr am bm cm ad bd cd) := s in
  match buf with
  | aDevice => mk en tr g em ve pa a b cr am bm cm v bd cd
  | bDevice => mk en tr g em ve pa a b cr am bm cm ad v cd
  | cDevice => mk en tr g em ve pa a b cr am bm cm ad bd v
  end.
Definition dev (buf : Buffer) s :=
  match buf with
  | aDevice => aDev s
  | bDevice => bDev s
  | cDevice => cDev s
  end.
End Setters.
End St.

(** ** The monad of [main] *)

(** How a statement ends: it falls through, [main] returns a status,
    an exception propagates, or the behaviour is undefined. *)
Inductive outcome (A : Type) :=
| Normal (x : A)
| Return (code : Z)
| Throw (e : exn)
| Undefined.
Arguments Normal {A} x.
Arguments Return {A} code.
Arguments Throw {A} e.
Arguments Undefined {A}.

(** ** Configuration *)

(** The constants of [MatrixMultiplication.h]. *)
Class Config := {
  kSizeN : nat;
  kSizeK : nat;
  kSizeM : nat;
  kMemoryWidth : nat;
  kSeed : Z
}.

(** The random number library: the engine [std::default_random_engine]
    with its seeding constructor, and the distribution selected for
    [Data_t], built from its two parameters and applied to an engine. *)
Class Random (S : Type) := {
  Rng : Type;
  default_random_engine : Z -> Rng;
  dist : Z -> Z -> Rng -> S * Rng
}.

Definition nl : string := String (Ascii.ascii_of_nat 10) EmptyString.
Definition dquote : string := String (Ascii.ascii_of_nat 34) EmptyString.

Section Harness.
Context {T : Type} {DT : DataType T} {cfg : Config} {rnd : Random dt_sample}.
Variable rt : Runtime T.

Local Abbreviation state := (St.state T Rng).

Definition M (A : Type) : Type := state -> outcome A * state.

#[global] Instance M_ret : MRet M := fun A x s => (Normal x, s).

#[global] Instance M_bind : MBind M := fun A B f m s =>
  match m s with
  | (Normal x, s') => f x s'
  | (Return c, s') => (Return c, s')
  | (Throw e, s') => (Throw e, s')
  | (Undefined, s') => (Undefined, s')
  end.

Definition gets {A : Type} (f : state -> A) : M A :=
  fun s => (Normal (f s), s).

Definition modify (f : state -> state) : M unit :=
  fun s => (Normal tt, f s).

Definition return_ {A : Type} (code : Z) : M A :=
  fun s => (Return code, s).

Definition throw {A : Type} (e : exn) : M A :=
  fun s => (Throw e, s).

Definition undefined {A : Type} : M A :=
  fun s => (Undefined, s).

Definition lift_opt {A : Type} (o : option A) : M A :=
  match o with
  | Some x => mret x
  | None => undefined
  end.

Definition when (c : bool) (m : M unit) : M unit :=
  if c then m else mret tt.

Definition log (x : action T) : M unit :=
  modify (fun s => St.set_trace (x :: St.trace s) s).

Definition cout (c : chunk T) : M unit := log (Cout c).
Definition cerr (c : chunk T) : M unit := log (Cerr c).

(** A call into the runtime: recorded, then it returns or raises. *)
Definition call {A : Type} (act : action T) (r : result A) : M A :=
  log act ;;
  match r with
  | Ok x => mret x
  | Raise e => log (Raised e) ;; throw e
  end.

(** [try { body } catch (std::runtime_error const &err) { handler }] *)
Definition try_catch (body : M unit) (handler : string -> M unit) : M unit :=
  fun s =>
    match body s with
    | (Throw (runtime_error what), s') => handler what s'
    | r => r
    end.

(** [for (int i = lo; i < lo + n; ++i) body] *)
Fixpoint for_ (n lo : nat) (body : nat -> M unit) : M unit :=
  match n with
  | O => mret tt
  | S n' => body lo ;; for_ n' (S lo) body
  end.

(** [std::for_each] with a function that assigns through its
    reference parameter. *)
Fixpoint for_each (l : list T) (f : T -> M T) : M (list T) :=
  match l with
  | [] => mret []
  | x :: l' => y ← f x; ys ← for_each l' f; mret (y :: ys)
  end.

(** *** Lines 15-19 *)
Definition PrintUsage : M unit :=
  cout (Str ("Usage: ./RunHardware.exe <mode [hw/hw_emu]> [<verify [on/off]>]" ++ nl)).

(** [hlslib::UnsetEnvironmentVariable] and
    [hlslib::SetEnvironmentVariable], taken to succeed *)
Definition unset_environment_variable (name : string) : M unit :=
  log (UnsetEnvironmentVariable name) ;;
  modify (fun s => St.set_environ (delete name (St.environ s)) s).

Definition set_environment_variable (name value : string) : M unit :=
  log (SetEnvironmentVariable name value) ;;
  modify (fun s => St.set_environ (<[name := value]> (St.environ s)) s).

(** *** Lines 29-56: defaults and command line *)
Definition parse_arguments (argv : list string) : M unit :=
  let argc := length argv in
  modify (St.set_emulation false) ;;
  modify (St.set_verify true) ;;
  unset_environment_variable "XCL_EMULATION_MODE" ;;
  modify (St.set_path "MatrixMultiplication_hw.xclbin") ;;
  when (3 <? argc) (PrintUsage ;; return_ 1) ;;
  when (1 <? argc)
    (emulation_arg ← lift_opt (argv !! 1);
     if String.eqb emulation_arg "hw_emu" then
       modify (St.set_emulation true) ;;
       set_environment_variable "XCL_EMULATION_MODE" "hw_emu" ;;
       modify (St.set_path "MatrixMultiplication_hw_emu.xclbin")
     else if negb (String.eqb emulation_arg "hw") then
       PrintUsage ;; return_ 1
     else mret tt) ;;
  when (2 <? argc)
    (verify_arg ← lift_opt (argv !! 2);
     if String.eqb verify_arg "off" then
       modify (St.set_verify false)
     else if negb (String.eqb verify_arg "on") then
       PrintUsage ;; return_ 1
     else mret tt).

(** *** Lines 58-75: host memory *)

(** [in = Data_t(dist(rng))], with [dist(1, 10)] of line 27 *)
Definition draw (_ : T) : M T :=
  log CallDist ;;
  g ← gets St.rng;
  let '(x, g') := dist 1 10 g in
  modify (St.set_rng g') ;;
  mret (dt_of_sample x).

Definition pack (x : list T) : M (list (list T)) :=
  log CallPack ;; mret (Pack kMemoryWidth x).

Definition initialize_host : M unit :=
  cout (Str "Initializing host memory...") ;;
  v ← gets St.verify;
  when v
    (modify (St.set_a (replicate (kSizeN * kSizeK) dt_zero)) ;;
     a ← gets St.a; a ← for_each a draw; modify (St.set_a a) ;;
     modify (St.set_b (replicate (kSizeK * kSizeM) dt_zero)) ;;
     b ← gets St.b; b ← for_each b draw; modify (St.set_b b) ;;
     modify (St.set_cRef (replicate (kSizeN * kSizeM) dt_zero)) ;;
     a ← gets St.a; aMem ← pack a; modify (St.set_aMem aMem) ;;
     b ← gets St.b; bMem ← pack b; modify (St.set_bMem bMem) ;;
     cRef ← gets St.cRef; cMem ← pack cRef; modify (St.set_cMem cMem)) ;;
  cout (Str (" Done." ++ nl)).

(** *** Lines 77-123: the session with the accelerator *)

(** Contents of [n] packs whose elements are given by index and lane *)
Definition packs_of (n : nat) (g : nat -> nat -> T) : list (list T) :=
  map (fun i => map (g i) (seq 0 kMemoryWidth)) (seq 0 n).

Definition make_buffer (buf : Buffer) (acc : Access) (bank : MemoryBank)
    (n : nat) : M unit :=
  g ← call (MakeBuffer buf acc bank n) (rt_MakeBuffer rt buf);
  modify (St.set_dev buf (packs_of n g)).

(** [buf.CopyFromHost(it)] reads as many packs as the buffer holds *)
Definition copy_from_host (buf : Buffer) (data : list (list T)) : M unit :=
  call (CopyFromHost buf data) (rt_CopyFromHost rt buf) ;;
  n ← gets (fun s => length (St.dev buf s));
  if length data <? n then undefined
  else modify (St.set_dev buf (take n data)).

(** [cDevice.CopyToHost(cMem.begin())] writes as many packs as the
    buffer holds *)
Definition copy_to_host : M unit :=
  call (CopyToHost cDevice) (rt_CopyToHost rt) ;;
  dc ← gets St.cDev;
  cm ← gets St.cMem;
  if length cm <? length dc then undefined
  else modify (St.set_cMem (dc ++ drop (length dc) cm)).

Definition execute_task : M (spec_float * spec_float) :=
  da ← gets St.aDev;
  db ← gets St.bDev;
  dc ← gets St.cDev;
  '(elapsed, out) ← call (ExecuteTask da db dc) (rt_ExecuteTask rt da db dc);
  modify (St.set_dev cDevice (packs_of (length dc) out)) ;;
  mret elapsed.

(** [1e-9 * (2 * static_cast<float>(kSizeN) * kSizeK * kSizeM) / t]:
    the product is computed in [float], the rest in [double]. *)
Definition performance (t : spec_float) : spec_float :=
  let f := fun n : nat => Float.of_Z Float.prec32 Float.emax32 (Z.of_nat n) in
  let fmul := SFmul Float.prec32 Float.emax32 in
  let ops := fmul (fmul (fmul (f 2) (f kSizeN)) (f kSizeK)) (f kSizeM) in
  SFdiv Float.prec64 Float.emax64
    (SFmul Float.prec64 Float.emax64 Float.lit_1e_9 (Float.to_double ops)) t.

Definition report_failure (what : string) : M unit :=
  cerr (Str ("Execution failed with error: " ++ dquote)) ;;
  cerr (Str what) ;;
  cerr (Str (dquote ++ ".")) ;;
  cerr (Str nl) ;;
  return_ 1.

Definition session_body : M unit :=
  cout (Str ("Initializing OpenCL context..." ++ nl)) ;;
  call NewContext (rt_Context rt) ;;
  cout (Str ("Programming device..." ++ nl)) ;;
  path ← gets St.path;
  call (MakeProgram path) (rt_MakeProgram rt path) ;;
  cout (Str ("Initializing device memory..." ++ nl)) ;;
  make_buffer aDevice read bank0 (kSizeN * kSizeK / kMemoryWidth) ;;
  make_buffer bDevice read bank1 (kSizeK * kSizeM / kMemoryWidth) ;;
  make_buffer cDevice write bank1 (kSizeN * kSizeM / kMemoryWidth) ;;
  v ← gets St.verify;
  when v
    (cout (Str ("Copying memory to device..." ++ nl)) ;;
     aMem ← gets St.aMem; copy_from_host aDevice aMem ;;
     bMem ← gets St.bMem; copy_from_host bDevice bMem ;;
     cMem ← gets St.cMem; copy_from_host cDevice cMem) ;;
  cout (Str ("Creating kernel..." ++ nl)) ;;
  call (MakeKernel "MatrixMultiplicationKernel" [aDevice; bDevice; cDevice])
       (rt_MakeKernel rt) ;;
  cout (Str ("Executing kernel..." ++ nl)) ;;
  elapsed ← execute_task;
  let perf := performance (fst elapsed) in
  cout (Str "Kernel executed in ") ;;
  cout (Dbl (fst elapsed)) ;;
  cout (Str " seconds, corresponding to a performance of ") ;;
  cout (Dbl perf) ;;
  cout (Str (" GOp/s." ++ nl)) ;;
  v ← gets St.verify;
  when v
    (cout (Str ("Copying back result..." ++ nl)) ;;
     copy_to_host).

Definition session : M unit := try_catch session_body report_failure.

(** *** Lines 125-147: reference and verification *)

(** Modelled from the spec: [ReferenceImplementation] of [Utility.h].
    The triple loop writes [C[i][j] = sum over k of A[i][k] * B[k][j]]
    for every [i < kSizeN] and [j < kSizeM], the terms being added in
    the order of [k]; the matrices are row-major. *)
Definition ReferenceImplementation (a b c : list T) : list T :=
  flat_map
    (fun i =>
       map
         (fun j =>
            fold_left
              (fun acc k =>
                 dt_add acc
                   (dt_mul (default dt_zero (a !! (i * kSizeK + k)))
                           (default dt_zero (b !! (k * kSizeM + j)))))
              (seq 0 kSizeK) dt_zero)
         (seq 0 kSizeM))
    (seq 0 kSizeN)
  ++ drop (kSizeN * kSizeM) c.

Definition report_mismatch (i j : nat) (testVal refVal : T) : M unit :=
  cerr (Str "Mismatch at (") ;;
  cerr (Int i) ;;
  cerr (Str ", ") ;;
  cerr (Int j) ;;
  cerr (Str "): ") ;;
  cerr (Val testVal) ;;
  cerr (Str " vs. ") ;;
  cerr (Val refVal) ;;
  cerr (Str nl) ;;
  return_ 1.

(** Lines 136-143, the body of the inner loop *)
Definition compare_at (cTest cRef : list T) (i j : nat) : M unit :=
  testVal ← lift_opt (cTest !! (i * kSizeM + j));
  refVal ← lift_opt (cRef !! (i * kSizeM + j));
  diff ← lift_opt (dt_minus testVal refVal ≫= dt_abs);
  eps ← lift_opt (dt_of_double Float.lit_1e_3);
  if dt_gt diff eps then report_mismatch i j testVal refVal
  else mret tt.

(** Lines 134-145 *)
Definition verification (cTest cRef : list T) : M unit :=
  for_ kSizeN 0 (fun i => for_ kSizeM 0 (fun j => compare_at cTest cRef i j)).

Definition check_result : M unit :=
  v ← gets St.verify;
  when v
    (cout (Str ("Running reference implementation..." ++ nl)) ;;
     a ← gets St.a;
     b ← gets St.b;
     c ← gets St.cRef;
     log CallReferenceImplementation ;;
     modify (St.set_cRef (ReferenceImplementation a b c)) ;;
     cout (Str ("Verifying result..." ++ nl)) ;;
     cMem ← gets St.cMem;
     log CallUnpack ;;
     let cTest := Unpack cMem in
     cRef ← gets St.cRef;
     verification cTest cRef ;;
     cout (Str "Successfully verified.") ;;
     cout (Str nl)).

(** *** [main] *)
Definition main (argv : list string) : M unit :=
  parse_arguments argv ;;
  initialize_host ;;
  session ;;
  check_result ;;
  return_ 0.

(** The state in which [main] starts: the given environment, nothing
    done yet, the engine seeded by line 23, empty vectors. *)
Definition init_state (env : gmap string string) : state :=
  St.mk env [] (default_random_engine kSeed) false false ""
        [] [] [] [] [] [] [] [] [].

(** A run of the program: [argv] holds the program name and then the
    arguments. *)
Definition run (env : gmap string string) (argv : list string)
    : outcome unit * state :=
  main argv (init_state env).

End Harness.

(** ** Observations on a run *)

Section Observations.
Context {T : Type}.

(** A trace lists the most recent action first; the projections
    below give what they select in the order in which it happened. *)

(** What was written to the standard error stream *)
Definition stderr_of (tr : list (action T)) : list (chunk T) :=
  rev (omap (fun x => match x with Cerr c => Some c | _ => None end) tr).

Definition stdout_of (tr : list (action T)) : list (chunk T) :=
  rev (omap (fun x => match x with Cout c => Some c | _ => None end) tr).

(** Calls into the accelerator runtime *)
Definition is_runtime_call (x : action T) : bool :=
  match x with
  | NewContext | MakeProgram _ | MakeBuffer _ _ _ _ | CopyFromHost _ _
  | MakeKernel _ _ | ExecuteTask _ _ _ | CopyToHost _ => true
  | _ => false
  end.

(** Transfers between host and device, in either direction *)
Definition is_transfer (x : action T) : bool :=
  match x with
  | CopyFromHost _ _ | CopyToHost _ => true
  | _ => false
  end.

(** The changes made to the environment *)
Definition environment_of (tr : list (action T)) : list (action T) :=
  rev (omap (fun x => match x with
                      | UnsetEnvironmentVariable _
                      | SetEnvironmentVariable _ _ => Some x
                      | _ => None
                      end) tr).

(** The exceptions raised by the runtime *)
Definition raised_of (tr : list (action T)) : list exn :=
  rev (omap (fun x => match x with Raised e => Some e | _ => None end) tr).

(** The device contents at each launch of the kernel *)
Definition launches_of (tr : list (action T))
    : list (list (list T) * list (list T) * list (list T)) :=
  rev (omap (fun x => match x with
                      | ExecuteTask da db dc => Some (da, db, dc)
                      | _ => None
                      end) tr).

(** The images given to the device *)
Definition programs_of (tr : list (action T)) : list string :=
  rev (omap (fun x => match x with MakeProgram p => Some p | _ => None end)
         tr).

(** The copies from host memory to the device *)
Definition uploads_of (tr : list (action T))
    : list (Buffer * list (list T)) :=
  rev (omap (fun x => match x with
                      | CopyFromHost buf data => Some (buf, data)
                      | _ => None
                      end) tr).

(** The usage text going to the standard output stream *)
Definition prints_usage (x : action T) : bool :=
  match x with
  | Cout (Str text) =>
      String.eqb text
        ("Usage: ./RunHardware.exe <mode [hw/hw_emu]> [<verify [on/off]>]"
         ++ nl)
  | _ => false
  end.

Definition is_reference (x : action T) : bool :=
  match x with
  | CallReferenceImplementation => true
  | _ => false
  end.

Definition is_launch (x : action T) : bool :=
  match x with
  | ExecuteTask _ _ _ => true
  | _ => false
  end.

(** What happened before the most recent action that satisfies [p] *)
Fixpoint before (p : action T -> bool) (tr : list (action T))
    : list (action T) :=
  match tr with
  | [] => []
  | x :: tr' => if p x then tr' else before p tr'
  end.

(** Host work that only a verifying run needs *)
Definition is_host_work (x : action T) : bool :=
  match x with
  | CallDist | CallPack | CallUnpack | CallReferenceImplementation => true
  | _ => false
  end.
End Observations.

(** ** A small concrete configuration *)

Module Example.
Local Open Scope Z_scope.

(** 2 x 2 matrices of [int], two elements per pack *)
#[export] Instance cfg : Config := {|
  kSizeN := 2; kSizeK := 2; kSizeM := 2; kMemoryWidth := 2; kSeed := 5
|}.

(** A linear congruential engine and a distribution over [a .. b] *)
Definition lcg : Random Z := {|
  Rng := Z;
  default_random_engine := fun seed => seed mod 2147483647;
  dist := fun a b g =>
    let g' := (16807 * g) mod 2147483647 in
    (a + g' mod (b - a + 1), g')
|}.

Definition int_dt : DataType Z := int_DataType int_.

Definition one_second : spec_float :=
  Eval vm_compute in Float.of_Z Float.prec64 Float.emax64 1.

(** A runtime on which every call succeeds; the kernel writes the
    product of the matrices held by its two input buffers. *)
Definition product (da db : list (list Z)) (i lane : nat) : Z :=
  default 0
    (ReferenceImplementation (DT := int_dt) (Unpack da) (Unpack db) []
       !! (i * 2 + lane)%nat).

Definition good : Runtime Z := {|
  rt_Context := Ok tt;
  rt_MakeProgram := fun _ => Ok tt;
  rt_MakeBuffer := fun _ => Ok (fun _ _ => 7);
  rt_CopyFromHost := fun _ => Ok tt;
  rt_MakeKernel := Ok tt;
  rt_ExecuteTask := fun da db _ => Ok (one_second, one_second, product da db);
  rt_CopyToHost := Ok tt
|}.

(** The same runtime with a kernel that leaves the output untouched *)
Definition idle : Runtime Z := {|
  rt_Context := Ok tt;
  rt_MakeProgram := fun _ => Ok tt;
  rt_MakeBuffer := fun _ => Ok (fun _ _ => 7);
  rt_CopyFromHost := fun _ => Ok tt;
  rt_MakeKernel := Ok tt;
  rt_ExecuteTask := fun _ _ dc =>
    Ok (one_second, one_second,
        fun i lane => default 0 (dc !! i ≫= fun p => p !! lane));
  rt_CopyToHost := Ok tt
|}.

(** A runtime that finds no device *)
Definition no_device : Runtime Z := {|
  rt_Context := Raise (runtime_error "no device");
  rt_MakeProgram := fun _ => Ok tt;
  rt_MakeBuffer := fun _ => Ok (fun _ _ => 7);
  rt_CopyFromHost := fun _ => Ok tt;
  rt_MakeKernel := Ok tt;
  rt_ExecuteTask := fun da db _ => Ok (one_second, one_second, product da db);
  rt_CopyToHost := Ok tt
|}.

Definition run_int (rt : Runtime Z) (env : gmap string string)
    (argv : list string) :=
  run (DT := int_dt) (rnd := lcg) rt env argv.

(** The state in which [main] starts from an empty environment *)
Definition start : St.state Z Z :=
  init_state (DT := int_dt) (rnd := lcg) ∅.
End Example.

(** ** Vocabulary of the statements *)

Section Vocabulary.
Context {T : Type} {DT : DataType T} {cfg : Config} {rnd : Random dt_sample}.

Local Abbreviation state := (St.state T Rng).

(** [n] successive values [Data_t(dist(rng))] and the engine after
    them *)
Fixpoint draws (n : nat) (g : Rng) : list T * Rng :=
  match n with
  | O => ([], g)
  | S n' =>
      let '(x, g') := dist 1 10 g in
      let '(xs, g'') := draws n' g' in
      (dt_of_sample x :: xs, g'')
  end.

(** The operands of a verifying run, from the seed alone *)
Definition generated_a : list T :=
  (draws (kSizeN * kSizeK) (default_random_engine kSeed)).1.

Definition generated_b : list T :=
  (draws (kSizeK * kSizeM)
     (draws (kSizeN * kSizeK) (default_random_engine kSeed)).2).1.

Definition zeros : list T := replicate (kSizeN * kSizeM) dt_zero.

Definition reference_result : list T :=
  ReferenceImplementation generated_a generated_b zeros.

(** [static_cast<Data_t>(1e-3)] *)
Definition epsilon : option T := dt_of_double Float.lit_1e_3.

(** [std::abs(testVal - refVal) > static_cast<Data_t>(1e-3)] *)
Definition exceeds (testVal refVal : T) : option bool :=
  diff ← dt_minus testVal refVal ≫= dt_abs;
  eps ← epsilon;
  Some (dt_gt diff eps).

(** What the comparison at one coordinate, or a scan of several,
    comes to *)
Inductive verdict :=
| Pass
| Mismatch (i j : nat) (testVal refVal : T)
| Undef.

Definition judge (cTest cRef : list T) (ij : nat * nat) : verdict :=
  let '(i, j) := ij in
  match cTest !! (i * kSizeM + j), cRef !! (i * kSizeM + j) with
  | Some testVal, Some refVal =>
      match exceeds testVal refVal with
      | Some true => Mismatch i j testVal refVal
      | Some false => Pass
      | None => Undef
      end
  | _, _ => Undef
  end.

Fixpoint scan (cTest cRef : list T) (cs : list (nat * nat)) : verdict :=
  match cs with
  | [] => Pass
  | ij :: cs' =>
      match judge cTest cRef ij with
      | Pass => scan cTest cRef cs'
      | v => v
      end
  end.

(** The coordinates of the result in row-major order *)
Definition coords : list (nat * nat) :=
  flat_map (fun i => map (pair i) (seq 0 kSizeM)) (seq 0 kSizeN).

(** The coordinates before [(i, j)] in row-major order all pass. *)
Definition passes_before (cTest cRef : list T) (i j : nat) : Prop :=
  forall i' j', i' < kSizeN -> j' < kSizeM ->
    i' * kSizeM + j' < i * kSizeM + j ->
    judge cTest cRef (i', j') = Pass.

Definition mismatch_report (i j : nat) (testVal refVal : T) : list (chunk T) :=
  [Str "Mismatch at ("; Int i; Str ", "; Int j; Str "): "; Val testVal;
   Str " vs. "; Val refVal; Str nl].

Definition failure_report (what : string) : list (chunk T) :=
  [Str ("Execution failed with error: " ++ dquote); Str what;
   Str (dquote ++ "."); Str nl].

Definition usage : chunk T :=
  Str ("Usage: ./RunHardware.exe <mode [hw/hw_emu]> [<verify [on/off]>]" ++ nl).

(** The progress lines written up to the launch of the kernel *)
Definition progress_to_launch (ver : bool) : list (chunk T) :=
  [Str "Initializing host memory..."; Str (" Done." ++ nl);
   Str ("Initializing OpenCL context..." ++ nl);
   Str ("Programming device..." ++ nl);
   Str ("Initializing device memory..." ++ nl)]
  ++ (if ver then [Str ("Copying memory to device..." ++ nl)] else [])
  ++ [Str ("Creating kernel..." ++ nl); Str ("Executing kernel..." ++ nl)].

(** The state after the command line has been accepted *)
Definition parsed_state (env : gmap string string) (emu ver : bool)
    : state :=
  St.mk
    (if emu then
       <["XCL_EMULATION_MODE" := "hw_emu"]> (delete "XCL_EMULATION_MODE" env)
     else delete "XCL_EMULATION_MODE" env)
    ((if emu then [SetEnvironmentVariable "XCL_EMULATION_MODE" "hw_emu"]
      else [])
     ++ [UnsetEnvironmentVariable "XCL_EMULATION_MODE"])
    (default_random_engine kSeed) emu ver
    (if emu then "MatrixMultiplication_hw_emu.xclbin"
     else "MatrixMultiplication_hw.xclbin")
    [] [] [] [] [] [] [] [] [].

(** The state in which a rejected command line leaves [main] *)
Definition rejected_state (env : gmap string string) (emu ver : bool)
    : state :=
  St.set_trace (Cout usage :: St.trace (parsed_state env emu ver))
    (parsed_state env emu ver).

(** How a verdict shows in the state and outcome of [verification] *)
Definition conclude (v : verdict) (s : state) : outcome unit * state :=
  match v with
  | Pass => (Normal tt, s)
  | Mismatch i j testVal refVal =>
      (Return 1%Z,
       St.set_trace
         (rev (map Cerr (mismatch_report i j testVal refVal)) ++ St.trace s)
         s)
  | Undef => (Undefined, s)
  end.

(** Weakest precondition of a computation for a postcondition on its
    outcome and final state *)
Definition wp {A : Type} (m : M A) (Q : outcome A -> state -> Prop)
    (s : state) : Prop :=
  Q (m s).1 (m s).2.

(** The postcondition of [m] in [m ≫= f] *)
Definition bindQ {A B : Type} (f : A -> M B)
    (Q : outcome B -> state -> Prop) (o : outcome A) (s : state) : Prop :=
  match o with
  | Normal x => wp (f x) Q s
  | Return c => Q (Return c) s
  | Throw e => Q (Throw e) s
  | Undefined => Q Undefined s
  end.

(** The postcondition of the body of a [try] block *)
Definition catchQ (handler : string -> M unit)
    (Q : outcome unit -> state -> Prop) (o : outcome unit) (s : state)
    : Prop :=
  match o with
  | Throw (runtime_error what) => wp (handler what) Q s
  | _ => Q o s
  end.
End Vocabulary.

(** The command line arguments that [main] accepts *)
Definition accepted (args : list string) : bool :=
  match args with
  | [] => true
  | [mode] => String.eqb mode "hw" || String.eqb mode "hw_emu"
  | [mode; check] =>
      (String.eqb mode "hw" || String.eqb mode "hw_emu")
      && (String.eqb check "on" || String.eqb check "off")
  | _ => false
  end.

(** The mode and the verification switch that the arguments select *)
Definition selects_emulation (args : list string) : bool :=
  match args with
  | mode :: _ => String.eqb mode "hw_emu"
  | [] => false
  end.

Definition selects_verify (args : list string) : bool :=
  match args with
  | _ :: check :: _ => negb (String.eqb check "off")
  | _ => true
  end.

(** Whether a call into the runtime returned *)
Definition is_ok {A : Type} (r : result A) : bool :=
  match r with
  | Ok _ => true
  | Raise _ => false
  end.

(** ** Vocabulary of the further properties *)

Section Outline.
Context {T : Type} {cfg : Config}.

(** A call into the runtime without the data it carries *)
Definition outline (x : action T) : action T :=
  match x with
  | CopyFromHost dst _ => CopyFromHost dst []
  | ExecuteTask _ _ _ => ExecuteTask [] [] []
  | _ => x
  end.

(** The calls into the runtime in the order in which they happened *)
Definition runtime_calls_of (tr : list (action T)) : list (action T) :=
  rev (omap (fun x => if is_runtime_call x then Some (outline x) else None)
         tr).

(** The calls of lines 79-116 in the order of the source *)
Definition lifecycle (emu ver : bool) : list (action T) :=
  [NewContext;
   MakeProgram (if emu then "MatrixMultiplication_hw_emu.xclbin"
                else "MatrixMultiplication_hw.xclbin");
   MakeBuffer aDevice read bank0 (kSizeN * kSizeK / kMemoryWidth);
   MakeBuffer bDevice read bank1 (kSizeK * kSizeM / kMemoryWidth);
   MakeBuffer cDevice write bank1 (kSizeN * kSizeM / kMemoryWidth)]
  ++ (if ver then
        [CopyFromHost aDevice []; CopyFromHost bDevice [];
         CopyFromHost cDevice []]
      else [])
  ++ [MakeKernel "MatrixMultiplicationKernel" [aDevice; bDevice; cDevice];
      ExecuteTask [] [] []]
  ++ (if ver then [CopyToHost cDevice] else []).

(** The line that announces a verified result *)
Definition reports_success (x : action T) : bool :=
  match x with
  | Cout (Str text) => String.eqb text "Successfully verified."
  | _ => false
  end.

(** The creation of the context, the first call into the runtime *)
Definition opens_context (x : action T) : bool :=
  match x with
  | NewContext => true
  | _ => false
  end.

(** The number of values drawn from the distribution *)
Definition draws_made (tr : list (action T)) : nat :=
  length (omap (fun x => match x with CallDist => Some tt | _ => None end)
            tr).

(** The part of a run that an action belongs to: the preparation of
    the environment and of the host memory (0), the session with the
    accelerator (1), the check of the result (2).  Writes to the
    streams belong to none. *)
Definition stage (x : action T) : option nat :=
  match x with
  | UnsetEnvironmentVariable _ | SetEnvironmentVariable _ _
  | CallDist | CallPack => Some 0
  | NewContext | MakeProgram _ | MakeBuffer _ _ _ _ | CopyFromHost _ _
  | MakeKernel _ _ | ExecuteTask _ _ _ | CopyToHost _ | Raised _ => Some 1
  | CallReferenceImplementation | CallUnpack => Some 2
  | Cout _ | Cerr _ => None
  end.

(** Whether, going back from the most recent action of a trace, the
    stages never increase, the first one being [hi] at most *)
Fixpoint staged (hi : nat) (tr : list (action T)) : bool :=
  match tr with
  | [] => true
  | x :: tr' =>
      match stage x with
      | Some p => (p <=? hi) && staged p tr'
      | None => staged hi tr'
      end
  end.
End Outline.

(** The mode that [main] has acted on when it stops: the first argument
    is looked at only when there are at most two. *)
Definition mode_seen (args : list string) : bool :=
  (length args <=? 2) && selects_emulation args.

(** ** Further runtimes and configurations *)

Module Scenario.
Local Open Scope Z_scope.

(** A runtime whose kernel creation fails with an exception that is
    not a [std::runtime_error] *)
Definition crash : Runtime Z := {|
  rt_Context := Ok tt;
  rt_MakeProgram := fun _ => Ok tt;
  rt_MakeBuffer := fun _ => Ok (fun _ _ => 7);
  rt_CopyFromHost := fun _ => Ok tt;
  rt_MakeKernel := Raise other_exception;
  rt_ExecuteTask := fun _ _ dc =>
    Ok (Example.one_second, Example.one_second, fun _ _ => 0);
  rt_CopyToHost := Ok tt
|}.

(** A runtime that finds no device and reports it by an exception
    that is not a [std::runtime_error] *)
Definition misconfigured : Runtime Z := {|
  rt_Context := Raise other_exception;
  rt_MakeProgram := fun _ => Ok tt;
  rt_MakeBuffer := fun _ => Ok (fun _ _ => 7);
  rt_CopyFromHost := fun _ => Ok tt;
  rt_MakeKernel := Ok tt;
  rt_ExecuteTask := fun _ _ dc =>
    Ok (Example.one_second, Example.one_second, fun _ _ => 0);
  rt_CopyToHost := Ok tt
|}.

Definition two_seconds : spec_float :=
  Eval vm_compute in Float.of_Z Float.prec64 Float.emax64 2.

(** A runtime on which every call succeeds and whose kernel takes
    two seconds *)
Definition slow : Runtime Z := {|
  rt_Context := Ok tt;
  rt_MakeProgram := fun _ => Ok tt;
  rt_MakeBuffer := fun _ => Ok (fun _ _ => 7);
  rt_CopyFromHost := fun _ => Ok tt;
  rt_MakeKernel := Ok tt;
  rt_ExecuteTask := fun da db _ =>
    Ok (two_seconds, two_seconds, Example.product da db);
  rt_CopyToHost := Ok tt
|}.

(** An engine for the real distribution: the samples are the
    integers of the interval as [double] values. *)
Definition lcg_real : Random spec_float := {|
  Rng := Z;
  default_random_engine := fun seed => seed mod 2147483647;
  dist := fun a b g =>
    let g' := (16807 * g) mod 2147483647 in
    (Float.of_Z Float.prec64 Float.emax64 (a + g' mod (b - a + 1)), g')
|}.

Definition two : spec_float :=
  Eval vm_compute in Float.of_Z Float.prec32 Float.emax32 2.
End Scenario.

(** ** Lists, packs and lengths *)

Section PackFacts.
Context {T : Type}.
Implicit Types (x : list T) (W : nat).

Lemma length_Pack W x : length (Pack W x) = length x / W.
Proof. unfold Pack. by rewrite length_map, length_seq. Qed.

(** The first [k] packs hold the first [k * W] elements. *)
Lemma Unpack_packs W x k :
  Unpack (map (fun i => take W (drop (i * W) x)) (seq 0 k)) = take (k * W) x.
Proof.
  unfold Unpack. induction k as [|k IH]; [done|].
  rewrite seq_S, map_app, concat_app, IH. cbn [map concat].
  rewrite app_nil_r, take_take_drop. f_equal. lia.
Qed.

Lemma Unpack_Pack W x : Unpack (Pack W x) = take (length x / W * W) x.
Proof. apply Unpack_packs. Qed.

Lemma Pack_replicate W n (z : T) :
  Pack W (replicate n z) = replicate (n / W) (replicate W z).
Proof.
  unfold Pack. rewrite length_replicate.
  destruct (decide (W = 0)) as [->|HW]; [done|].
  assert (Hle : n / W * W <= n) by (rewrite Nat.mul_comm; apply Nat.Div0.mul_div_le).
  revert Hle. generalize (n / W) as k. intros k Hk.
  apply list_eq. intros i.
  rewrite list_lookup_fmap.
  destruct (decide (i < k)) as [Hi|Hi].
  - rewrite lookup_seq_lt by done. rewrite lookup_replicate_2 by done. cbn.
    f_equal. rewrite drop_replicate, take_replicate. f_equal. nia.
  - rewrite lookup_seq_ge by lia. cbn. symmetry.
    apply lookup_replicate_None. lia.
Qed.
End PackFacts.

(** ** The program logic *)

Section Logic.
Context {T : Type} {DT : DataType T} {cfg : Config} {rnd : Random dt_sample}.

Local Abbreviation state := (St.state T Rng).
Implicit Type s : state.

Lemma wp_bind {A B} (m : M A) (f : A -> M B) Q s :
  wp m (bindQ f Q) s -> wp (m ≫= f) Q s.
Proof.
  unfold wp, bindQ, mbind, M_bind.
  destruct (m s) as [[x|c|e|] s']; cbn; auto.
Qed.

Lemma wp_ret {A} (x : A) (Q : outcome A -> state -> Prop) s :
  Q (Normal x) s -> wp (mret x) Q s.
Proof. auto. Qed.

Lemma wp_gets {A} (f : state -> A) (Q : outcome A -> state -> Prop) s :
  Q (Normal (f s)) s -> wp (gets f) Q s.
Proof. auto. Qed.

Lemma wp_modify (f : state -> state) (Q : outcome unit -> state -> Prop) s :
  Q (Normal tt) (f s) -> wp (modify f) Q s.
Proof. auto. Qed.

Lemma wp_log (x : action T) (Q : outcome unit -> state -> Prop) s :
  Q (Normal tt) (St.set_trace (x :: St.trace s) s) -> wp (log x) Q s.
Proof. auto. Qed.

Lemma wp_return {A} (c : Z) (Q : outcome A -> state -> Prop) s :
  Q (Return c) s -> wp (return_ c) Q s.
Proof. auto. Qed.

Lemma wp_throw {A} (e : exn) (Q : outcome A -> state -> Prop) s :
  Q (Throw e) s -> wp (throw e) Q s.
Proof. auto. Qed.

Lemma wp_undefined {A} (Q : outcome A -> state -> Prop) s :
  Q Undefined s -> wp undefined Q s.
Proof. auto. Qed.

Lemma wp_try_catch body handler Q s :
  wp body (catchQ handler Q) s -> wp (try_catch body handler) Q s.
Proof.
  unfold wp, catchQ, try_catch.
  destruct (body s) as [[x|c|[w|]|] s']; cbn; auto.
Qed.

(** A postcondition may be weakened. *)
Lemma wp_mono {A} (m : M A) (Q Q' : outcome A -> state -> Prop) s :
  wp m Q s -> (forall o s', Q o s' -> Q' o s') -> wp m Q' s.
Proof. unfold wp. auto. Qed.

(** A computation whose result is known *)
Lemma wp_eq {A} (m : M A) (Q : outcome A -> state -> Prop) s o s' :
  m s = (o, s') -> Q o s' -> wp m Q s.
Proof. unfold wp. by intros ->. Qed.

Lemma replicate_app_cons {A} n (x : A) l :
  replicate n x ++ x :: l = x :: replicate n x ++ l.
Proof. induction n as [|n IH]; [done|]. cbn. by rewrite IH. Qed.

Lemma for_each_draw l s :
  for_each l draw s =
    (Normal (draws (length l) (St.rng s)).1,
     St.set_rng (draws (length l) (St.rng s)).2
       (St.set_trace (replicate (length l) CallDist ++ St.trace s) s)).
Proof.
  revert s. induction l as [|x l IH]; intros s.
  - by destruct s.
  - cbn [for_each length draws replicate].
    unfold mbind, M_bind at 1.
    unfold draw at 1. unfold mbind, M_bind, log, modify, gets, mret, M_ret.
    destruct s as [en tr g em ve pa a b cr am bm cm ad bd cd]. cbn.
    destruct (dist 1 10 g) as [y g'] eqn:Hd. cbn.
    rewrite IH. cbn.
    destruct (draws (length l) g') as [ys g'']. cbn.
    by rewrite replicate_app_cons.
Qed.

Lemma wp_for_each_draw n z (Q : outcome (list T) -> state -> Prop) s :
  Q (Normal (draws n (St.rng s)).1)
    (St.set_rng (draws n (St.rng s)).2
       (St.set_trace (replicate n CallDist ++ St.trace s) s)) ->
  wp (for_each (replicate n z) draw) Q s.
Proof.
  intros H. eapply wp_eq; [apply for_each_draw|].
  by rewrite length_replicate.
Qed.
End Logic.

(** ** The phases of [main] *)

Section Phases.
Context {T : Type} {DT : DataType T} {cfg : Config} {rnd : Random dt_sample}.

Local Abbreviation state := (St.state T Rng).
Implicit Type s : state.
Implicit Types cTest cRef : list T.

Lemma length_draws n g : length (draws n g).1 = n.
Proof.
  revert g. induction n as [|n IH]; intros g; [done|].
  cbn [draws]. destruct (dist 1 10 g) as [x g'].
  specialize (IH g'). destruct (draws n g') as [xs g'']. cbn in *. lia.
Qed.

Lemma length_packs_of n (g : nat -> nat -> T) : length (packs_of n g) = n.
Proof. unfold packs_of. by rewrite length_map, length_seq. Qed.

(** *** Transfers between buffers of the same size *)

Lemma wp_copy_from_host rt buf data (Q : outcome unit -> state -> Prop) s :
  length data = length (St.dev buf s) ->
  match rt_CopyFromHost rt buf with
  | Ok _ =>
      Q (Normal tt)
        (St.set_dev buf data
           (St.set_trace (CopyFromHost buf data :: St.trace s) s))
  | Raise e =>
      Q (Throw e)
        (St.set_trace
           (Raised e :: CopyFromHost buf data :: St.trace s) s)
  end ->
  wp (copy_from_host rt buf data) Q s.
Proof.
  intros Hlen H. unfold copy_from_host, call.
  apply wp_bind, wp_bind, wp_log. cbn [bindQ].
  destruct (rt_CopyFromHost rt buf) as [[]|e].
  - apply wp_ret. cbn [bindQ]. apply wp_bind, wp_gets. cbn [bindQ].
    destruct s, buf;
      cbn [St.dev St.set_trace St.set_dev St.aDev St.bDev St.cDev St.trace]
        in *;
      rewrite <- Hlen, Nat.ltb_irrefl; apply wp_modify;
      cbn [St.dev St.set_trace St.set_dev St.aDev St.bDev St.cDev St.trace];
      by rewrite take_ge.
  - apply wp_bind, wp_log. cbn [bindQ]. apply wp_throw. cbn [bindQ].
    by destruct s.
Qed.

Lemma wp_copy_to_host rt (Q : outcome unit -> state -> Prop) s :
  length (St.cMem s) = length (St.cDev s) ->
  match rt_CopyToHost rt with
  | Ok _ =>
      Q (Normal tt)
        (St.set_cMem (St.cDev s)
           (St.set_trace (CopyToHost cDevice :: St.trace s) s))
  | Raise e =>
      Q (Throw e)
        (St.set_trace (Raised e :: CopyToHost cDevice :: St.trace s) s)
  end ->
  wp (copy_to_host rt) Q s.
Proof.
  intros Hlen H. unfold copy_to_host, call.
  apply wp_bind, wp_bind, wp_log. cbn [bindQ].
  destruct (rt_CopyToHost rt) as [[]|e].
  - apply wp_ret. cbn [bindQ]. apply wp_bind, wp_gets. cbn [bindQ].
    apply wp_bind, wp_gets. cbn [bindQ].
    destruct s;
      cbn [St.set_trace St.set_cMem St.cMem St.cDev St.trace] in *.
    rewrite Hlen, Nat.ltb_irrefl. apply wp_modify.
    cbn [St.set_trace St.set_cMem St.cMem St.cDev St.trace].
    by rewrite <- Hlen, drop_all, app_nil_r.
  - apply wp_bind, wp_log. cbn [bindQ]. apply wp_throw. cbn [bindQ].
    by destruct s.
Qed.

(** *** The verification loop as a scan of the coordinates *)

Lemma compare_at_judge cTest cRef i j s :
  compare_at cTest cRef i j s = conclude (judge cTest cRef (i, j)) s.
Proof.
  unfold compare_at, judge, exceeds, epsilon.
  unfold mbind, M_bind, option_bind, lift_opt, mret, M_ret, undefined.
  destruct (cTest !! (i * kSizeM + j)) as [t|]; [|done].
  destruct (cRef !! (i * kSizeM + j)) as [r|]; [|done].
  destruct (dt_minus t r) as [d|]; [|done].
  destruct (dt_abs d) as [d'|]; [|done].
  destruct (dt_of_double Float.lit_1e_3) as [eps|]; [|done].
  destruct (dt_gt d' eps); [|done].
  destruct s.
  by cbv [report_mismatch cerr log modify return_ mbind M_bind conclude
          St.set_trace St.trace].
Qed.

Lemma scan_app cTest cRef l1 l2 :
  scan cTest cRef (l1 ++ l2) =
    match scan cTest cRef l1 with
    | Pass => scan cTest cRef l2
    | v => v
    end.
Proof.
  induction l1 as [|ij l1 IH]; [done|].
  cbn. by destruct (judge cTest cRef ij).
Qed.

Lemma inner_loop_scan cTest cRef i n lo s :
  for_ n lo (fun j => compare_at cTest cRef i j) s =
    conclude (scan cTest cRef (map (pair i) (seq lo n))) s.
Proof.
  revert lo. induction n as [|n IH]; intros lo; [done|].
  cbn [for_ seq map scan]. unfold mbind, M_bind.
  rewrite compare_at_judge.
  destruct (judge cTest cRef (i, lo)); cbn [conclude]; [apply IH|done..].
Qed.

Lemma outer_loop_scan cTest cRef n lo s :
  for_ n lo (fun i => for_ kSizeM 0 (fun j => compare_at cTest cRef i j)) s =
    conclude
      (scan cTest cRef
         (flat_map (fun i => map (pair i) (seq 0 kSizeM)) (seq lo n))) s.
Proof.
  revert lo. induction n as [|n IH]; intros lo; [done|].
  cbn [for_ seq flat_map]. unfold mbind, M_bind.
  rewrite inner_loop_scan, scan_app.
  destruct (scan cTest cRef (map (pair lo) (seq 0 kSizeM)));
    cbn [conclude]; [apply IH|done..].
Qed.

Lemma verification_scan cTest cRef s :
  verification cTest cRef s = conclude (scan cTest cRef coords) s.
Proof. apply outer_loop_scan. Qed.

Lemma wp_verification cTest cRef (Q : outcome unit -> state -> Prop) s :
  Q (conclude (scan cTest cRef coords) s).1
    (conclude (scan cTest cRef coords) s).2 ->
  wp (verification cTest cRef) Q s.
Proof. unfold wp. by rewrite verification_scan. Qed.

(** *** Row-major order *)

Lemma coords_rows n :
  flat_map (fun i => map (pair i) (seq 0 kSizeM)) (seq 0 n) =
    map (fun k => (k / kSizeM, k mod kSizeM)) (seq 0 (n * kSizeM)).
Proof.
  induction n as [|n IH]; [done|].
  rewrite seq_S, flat_map_app, IH. cbn [flat_map]. rewrite app_nil_r.
  replace (S n * kSizeM) with (n * kSizeM + kSizeM) by lia.
  rewrite seq_app, map_app. f_equal. cbn [plus].
  apply list_eq. intros k. rewrite !list_lookup_fmap.
  destruct (decide (k < kSizeM)) as [Hk|Hk].
  - rewrite !lookup_seq_lt by done. cbn. f_equal. f_equal.
    + apply Nat.div_unique with k; lia.
    + apply Nat.mod_unique with n; lia.
  - by rewrite !lookup_seq_ge by lia.
Qed.

Lemma coords_lookup i j :
  i < kSizeN -> j < kSizeM -> coords !! (i * kSizeM + j) = Some (i, j).
Proof.
  intros Hi Hj. unfold coords. rewrite coords_rows, list_lookup_fmap.
  rewrite lookup_seq_lt by nia. cbn. f_equal. f_equal.
  - symmetry. apply Nat.div_unique with j; lia.
  - symmetry. apply Nat.mod_unique with i; lia.
Qed.

Lemma coords_lookup_inv k i j :
  coords !! k = Some (i, j) ->
  i < kSizeN /\ j < kSizeM /\ k = i * kSizeM + j.
Proof.
  unfold coords. rewrite coords_rows, list_lookup_fmap.
  intros H. apply fmap_Some in H as (k' & Hk & E).
  apply lookup_seq in Hk as [-> Hlt]. cbn in *.
  injection E as -> ->.
  assert (kSizeM <> 0) by (intros Z; rewrite Z in Hlt; lia).
  pose proof (Nat.div_mod_eq k kSizeM).
  pose proof (Nat.mod_upper_bound k kSizeM).
  split; [|split]; [|lia|lia].
  apply Nat.Div0.div_lt_upper_bound. lia.
Qed.
End Phases.

(** ** Scanning for the first coordinate that does not pass *)

Section Scan.
Context {T : Type} {DT : DataType T} {cfg : Config}.
Implicit Types cTest cRef : list T.

Lemma judge_Mismatch cTest cRef ij i j t r :
  judge cTest cRef ij = Mismatch i j t r <->
  ij = (i, j)
  /\ cTest !! (i * kSizeM + j) = Some t
  /\ cRef !! (i * kSizeM + j) = Some r
  /\ exceeds t r = Some true.
Proof.
  destruct ij as [i' j']. unfold judge. split.
  - destruct (cTest !! (i' * kSizeM + j')) as [t'|] eqn:Et; [|done].
    destruct (cRef !! (i' * kSizeM + j')) as [r'|] eqn:Er; [|done].
    destruct (exceeds t' r') as [[]|] eqn:Ex; [|done..].
    intros [= -> -> -> ->]. done.
  - intros ([= -> ->] & -> & -> & ->). done.
Qed.

Lemma judge_Pass cTest cRef i j :
  judge cTest cRef (i, j) = Pass <->
  exists t r,
    cTest !! (i * kSizeM + j) = Some t
    /\ cRef !! (i * kSizeM + j) = Some r
    /\ exceeds t r = Some false.
Proof.
  unfold judge. split.
  - destruct (cTest !! (i * kSizeM + j)) as [t|]; [|done].
    destruct (cRef !! (i * kSizeM + j)) as [r|]; [|done].
    destruct (exceeds t r) as [[]|] eqn:Ex; [done| |done].
    intros _. by exists t, r.
  - intros (t & r & -> & -> & ->). done.
Qed.

(** The value of a scan is the verdict at the first place that does
    not pass. *)
Lemma scan_Pass cTest cRef cs :
  scan cTest cRef cs = Pass <->
  forall k ij, cs !! k = Some ij -> judge cTest cRef ij = Pass.
Proof.
  induction cs as [|c cs IH]; cbn [scan].
  - split; [|done]. intros _ k ij H. by rewrite lookup_nil in H.
  - split.
    + intros H [|k] ij Hk.
      * injection Hk as <-. by destruct (judge cTest cRef c).
      * destruct (judge cTest cRef c); [|done..].
        by apply (proj1 IH H k).
    + intros H. rewrite (H 0 c eq_refl). apply IH.
      intros k ij Hk. by apply (H (S k)).
Qed.

Lemma scan_first cTest cRef cs v :
  v <> Pass ->
  scan cTest cRef cs = v <->
  exists k ij,
    cs !! k = Some ij /\ judge cTest cRef ij = v
    /\ forall k' ij', k' < k -> cs !! k' = Some ij' ->
         judge cTest cRef ij' = Pass.
Proof.
  intros Hv. induction cs as [|c cs IH]; cbn [scan].
  - split; [intros <-; done|]. intros (k & ij & H & _).
    by rewrite lookup_nil in H.
  - destruct (judge cTest cRef c) eqn:Ec.
    + rewrite IH. split.
      * intros (k & ij & Hk & Hj & Hlt). exists (S k), ij.
        split; [done|]. split; [done|].
        intros [|k'] ij' Hk' Hl; [by injection Hl as <-|].
        apply (Hlt k'); [lia|done].
      * intros ([|k] & ij & Hk & Hj & Hlt).
        { injection Hk as <-. congruence. }
        exists k, ij. split; [done|]. split; [done|].
        intros k' ij' Hk' Hl. apply (Hlt (S k')); [lia|done].
    + split.
      * intros <-. exists 0, c. split; [done|]. split; [done|]. lia.
      * intros ([|k] & ij & Hk & Hj & Hlt).
        { injection Hk as <-. congruence. }
        specialize (Hlt 0 c ltac:(lia) eq_refl). congruence.
    + split.
      * intros <-. exists 0, c. split; [done|]. split; [done|]. lia.
      * intros ([|k] & ij & Hk & Hj & Hlt).
        { injection Hk as <-. congruence. }
        specialize (Hlt 0 c ltac:(lia) eq_refl). congruence.
Qed.

Lemma scan_coords_Pass cTest cRef :
  scan cTest cRef coords = Pass <->
  forall i j, i < kSizeN -> j < kSizeM -> judge cTest cRef (i, j) = Pass.
Proof.
  rewrite scan_Pass. split.
  - intros H i j Hi Hj. apply (H (i * kSizeM + j)). by apply coords_lookup.
  - intros H k [i j] Hk. apply coords_lookup_inv in Hk as (Hi & Hj & _).
    by apply H.
Qed.

Lemma scan_coords_first cTest cRef v :
  v <> Pass ->
  scan cTest cRef coords = v <->
  exists i j,
    i < kSizeN /\ j < kSizeM /\ judge cTest cRef (i, j) = v
    /\ passes_before cTest cRef i j.
Proof.
  intros Hv. rewrite (scan_first _ _ _ _ Hv). split.
  - intros (k & [i j] & Hk & Hj & Hlt).
    apply coords_lookup_inv in Hk as (Hi & Hjm & ->).
    exists i, j. do 3 (split; [done|]).
    intros i' j' Hi' Hj' Hidx.
    apply (Hlt (i' * kSizeM + j')); [done|]. by apply coords_lookup.
  - intros (i & j & Hi & Hjm & Hj & Hb).
    exists (i * kSizeM + j), (i, j).
    split; [by apply coords_lookup|]. split; [done|].
    intros k' [i' j'] Hk' Hl.
    apply coords_lookup_inv in Hl as (Hi' & Hj' & ->). by apply Hb.
Qed.

Lemma scan_coords_Mismatch cTest cRef i j t r :
  scan cTest cRef coords = Mismatch i j t r <->
  i < kSizeN /\ j < kSizeM
  /\ cTest !! (i * kSizeM + j) = Some t
  /\ cRef !! (i * kSizeM + j) = Some r
  /\ exceeds t r = Some true
  /\ passes_before cTest cRef i j.
Proof.
  rewrite scan_coords_first by done. split.
  - intros (i' & j' & Hi & Hj & Hm & Hb).
    apply judge_Mismatch in Hm as ([= -> ->] & Ht & Hr & Hx). done.
  - intros (Hi & Hj & Ht & Hr & Hx & Hb). exists i, j.
    do 2 (split; [done|]). split; [|done]. by apply judge_Mismatch.
Qed.

(** The verdict at a coordinate depends on the two elements there
    only. *)
Lemma judge_agree cTest cRef cTest' cRef' i j :
  cTest' !! (i * kSizeM + j) = cTest !! (i * kSizeM + j) ->
  cRef' !! (i * kSizeM + j) = cRef !! (i * kSizeM + j) ->
  judge cTest' cRef' (i, j) = judge cTest cRef (i, j).
Proof. unfold judge. by intros -> ->. Qed.
End Scan.

Ltac lengths :=
  rewrite ?length_Pack, ?length_draws, ?length_packs_of, ?length_replicate,
    ?length_map, ?length_seq, ?length_take, ?length_app, ?length_drop,
    ?Nat.min_id.

(** Symbolic execution of straight-line code, one statement at a time *)
Ltac st_simpl :=
  cbn beta iota delta
    [bindQ catchQ
     St.set_environ St.set_trace St.set_rng St.set_emulation St.set_verify
     St.set_path St.set_a St.set_b St.set_cRef St.set_aMem St.set_bMem
     St.set_cMem St.set_dev St.dev
     St.environ St.trace St.rng St.emulation St.verify St.path St.a St.b
     St.cRef St.aMem St.bMem St.cMem St.aDev St.bDev St.cDev fst snd negb].

Ltac wp_step :=
  lazymatch goal with
  | |- wp (mbind _ _) _ _ => apply wp_bind
  | |- wp (mret _) _ _ => apply wp_ret
  | |- wp (gets _) _ _ => apply wp_gets
  | |- wp (modify _) _ _ => apply wp_modify
  | |- wp (log _) _ _ => apply wp_log
  | |- wp (cout _) _ _ => apply wp_log
  | |- wp (cerr _) _ _ => apply wp_log
  | |- wp (return_ _) _ _ => apply wp_return
  | |- wp (throw _) _ _ => apply wp_throw
  | |- wp undefined _ _ => apply wp_undefined
  | |- wp (try_catch _ _) _ _ => apply wp_try_catch
  | |- wp (lift_opt (Some _)) _ _ => apply wp_ret
  | |- wp (lift_opt None) _ _ => apply wp_undefined
  | |- wp (when true _) _ _ => unfold when
  | |- wp (when false _) _ _ => apply wp_ret
  | |- wp (when ?b _) _ _ => destruct b eqn:?
  | |- wp (call _ _) _ _ => unfold call
  | |- wp (match ?r with Ok _ => _ | Raise _ => _ end) _ _ =>
      destruct r as [?|[?|]] eqn:?
  | |- wp (if negb ?b then _ else _) _ _ => destruct b eqn:?
  | |- wp (if ?b then _ else _) _ _ => destruct b eqn:?
  | |- wp (let '(_, _) := ?p in _) _ _ => destruct p as [? ?] eqn:?
  | |- wp PrintUsage _ _ => apply wp_log
  | |- wp (unset_environment_variable _) _ _ =>
      unfold unset_environment_variable
  | |- wp (set_environment_variable _ _) _ _ =>
      unfold set_environment_variable
  | |- wp (report_failure _) _ _ => unfold report_failure
  | |- wp (report_mismatch _ _ _ _) _ _ => unfold report_mismatch
  | |- wp (pack _) _ _ => unfold pack
  | |- wp (make_buffer _ _ _ _ _) _ _ => unfold make_buffer
  | |- wp (copy_from_host _ _ _) _ _ =>
      apply wp_copy_from_host; [st_simpl; lengths; reflexivity|]
  | |- wp (copy_to_host _) _ _ =>
      apply wp_copy_to_host; [st_simpl; lengths; reflexivity|]
  | |- match ?r with Ok _ => _ | Raise _ => _ end =>
      destruct r as [?|[?|]] eqn:?
  | |- wp (execute_task _) _ _ => unfold execute_task
  | |- wp (for_each (replicate _ _) draw) _ _ => apply wp_for_each_draw
  | |- wp (verification ?ct ?cr) _ _ =>
      apply wp_verification;
      destruct (scan ct cr coords) eqn:?; cbn [conclude]
  | |- wp initialize_host _ _ => unfold initialize_host
  | |- wp (session _) _ _ => unfold session
  | |- wp (session_body _) _ _ => unfold session_body
  | |- wp check_result _ _ => unfold check_result
  | |- wp (main _ _) _ _ => unfold main
  end; st_simpl.

Ltac wp_run := repeat wp_step.

(** ** Packing *)

(** C1: unpacking the packed form of an operand whose length is a
    multiple of the memory width gives the operand back, element for
    element and in order, whatever the element type; the operand is cut
    into [length x / W] packs and pack [i] holds the elements
    [i*W .. (i+1)*W - 1]. *)
Theorem Unpack_Pack_roundtrip (T : Type) (W : nat) (x : list T) :
  Nat.divide W (length x) ->
  Unpack (Pack W x) = x
  /\ length (Pack W x) = length x / W
  /\ forall i, i < length x / W ->
       Pack W x !! i = Some (take W (drop (i * W) x)).
Proof.
  intros [k Hk]. split; [|split].
  - rewrite Unpack_Pack.
    destruct (decide (W = 0)) as [->|HW].
    + rewrite Nat.mul_0_r in Hk. apply nil_length_inv in Hk. by subst.
    + rewrite Hk, Nat.div_mul by done. rewrite <- Hk. by rewrite take_ge.
  - apply length_Pack.
  - intros i Hi. unfold Pack. rewrite list_lookup_fmap.
    by rewrite lookup_seq_lt.
Qed.

Lemma Unpack_Pack_roundtrip_witness :
  Unpack (Pack 2 [1; 2; 3; 4; 5; 6]) = [1; 2; 3; 4; 5; 6]
  /\ length (Pack 2 [1; 2; 3; 4; 5; 6]) = 3
  /\ forall i, i < 3 ->
       Pack 2 [1; 2; 3; 4; 5; 6] !! i
       = Some (take 2 (drop (i * 2) [1; 2; 3; 4; 5; 6])).
Proof.
  apply (Unpack_Pack_roundtrip nat 2 [1; 2; 3; 4; 5; 6]).
  exists 3. reflexivity.
Defined.

(** ** Verification against the reference *)

Section Verification.
Context {T : Type} {DT : DataType T} {cfg : Config} {rnd : Random dt_sample}.

Local Abbreviation state := (St.state T Rng).
Implicit Type s : state.
Implicit Types cTest cRef : list T.

(** The state after a mismatch has been reported *)
Lemma conclude_Mismatch_inj s i j t r i' j' t' r' :
  St.set_trace (rev (map Cerr (mismatch_report i j t r)) ++ St.trace s) s =
  St.set_trace (rev (map Cerr (mismatch_report i' j' t' r')) ++ St.trace s)
    s ->
  i = i' /\ j = j' /\ t = t' /\ r = r'.
Proof.
  destruct s. cbn. by intros [= -> -> -> ->].
Qed.

Lemma verification_Return cTest cRef s i j t r :
  verification cTest cRef s =
    (Return 1%Z,
     St.set_trace (rev (map Cerr (mismatch_report i j t r)) ++ St.trace s)
       s)
  <-> scan cTest cRef coords = Mismatch i j t r.
Proof.
  rewrite verification_scan. split.
  - destruct (scan cTest cRef coords) as [|i' j' t' r'|]; cbn [conclude];
      [done| |done].
    intros [= H]. apply conclude_Mismatch_inj in H as (-> & -> & -> & ->).
    done.
  - by intros ->.
Qed.

Lemma verification_Normal cTest cRef s :
  verification cTest cRef s = (Normal tt, s)
  <-> scan cTest cRef coords = Pass.
Proof.
  rewrite verification_scan. split; [|by intros ->].
  by destruct (scan cTest cRef coords).
Qed.
End Verification.

Lemma float_epsilon :
  epsilon (DT := float_DataType) = Some (S754_finite false 8589935 (-33)).
Proof. reflexivity. Qed.

Lemma double_epsilon :
  epsilon (DT := double_DataType)
  = Some (S754_finite false 4611686018427388 (-62)).
Proof. reflexivity. Qed.

Lemma in_range_0 it : (0 < it_bits it)%Z -> in_range it 0 = true.
Proof.
  intros Hb. unfold in_range, it_min, it_max.
  assert (0 < 2 ^ (it_bits it - 1))%Z by (apply Z.pow_pos_nonneg; lia).
  assert (0 < 2 ^ it_bits it)%Z by (apply Z.pow_pos_nonneg; lia).
  destruct (it_signed it); apply andb_true_iff; split; apply Z.leb_le; lia.
Qed.

Lemma int_of_double_lit it :
  int_of_double it Float.lit_1e_3 = if in_range it 0 then Some 0%Z else None.
Proof. reflexivity. Qed.

Lemma int_epsilon it :
  (0 < it_bits it)%Z -> epsilon (DT := int_DataType it) = Some 0%Z.
Proof.
  intros Hb. unfold epsilon. cbn [dt_of_double int_DataType].
  by rewrite int_of_double_lit, in_range_0.
Qed.

Lemma promote_bits it : (0 < it_bits it)%Z -> (0 < it_bits (promote it))%Z.
Proof. unfold promote. by destruct (it_bits it <? 32)%Z. Qed.

Lemma int_exceeds_unfold it (t r : Z) :
  exceeds (DT := int_DataType it) t r =
    diff ← int_minus it t r ≫= int_abs it;
    eps ← int_of_double it Float.lit_1e_3;
    Some (eps <? diff)%Z.
Proof. reflexivity. Qed.

(** At an integer type, a difference that is defined exceeds the
    tolerance exactly when the operands differ. *)
Lemma int_exceeds it (t r : Z) (b : bool) :
  exceeds (DT := int_DataType it) t r = Some b -> b = true <-> t <> r.
Proof.
  rewrite int_exceeds_unfold, int_of_double_lit. unfold int_minus, int_abs.
  destruct (it_signed (promote it)); [|done].
  destruct (in_range (promote it) (t - r)); [|done].
  cbn [mbind option_bind].
  destruct (Z.eqb_spec (t - r) (it_min (promote it))); [done|].
  cbn [mbind option_bind].
  destruct (in_range it 0); [|done].
  cbn [mbind option_bind].
  intros [= <-]. rewrite Z.ltb_lt. lia.
Qed.

Lemma int_exceeds_same it (t : Z) :
  (0 < it_bits it)%Z -> it_signed (promote it) = true ->
  exceeds (DT := int_DataType it) t t = Some false.
Proof.
  intros Hb Hs. rewrite int_exceeds_unfold, int_of_double_lit.
  rewrite (in_range_0 it Hb).
  unfold int_minus, int_abs. rewrite Hs, Z.sub_diag.
  rewrite (in_range_0 _ (promote_bits it Hb)). cbn [mbind option_bind].
  destruct (Z.eqb_spec 0 (it_min (promote it))) as [E|E]; [|done].
  exfalso. unfold it_min in E. rewrite Hs in E.
  pose proof (promote_bits it Hb).
  assert (0 < 2 ^ (it_bits (promote it) - 1))%Z
    by (apply Z.pow_pos_nonneg; lia).
  lia.
Qed.

(** C2: the verification loop stops with a report exactly at the first
    coordinate, in row-major order, whose elements differ by more than
    the tolerance, that is where [abs (testVal - refVal) > eps] holds
    with [eps] the literal 1e-3 converted to the element type; the
    report carries that coordinate and the two values, and the loop
    runs to its end exactly when no coordinate exceeds the tolerance.
    The comparison is strict: at [float], [double] and the integer
    types a difference equal to [eps] passes and the next representable
    difference fails. *)
Theorem tolerance_boundary :
  (forall (T : Type) (DT : DataType T) (cfg : Config)
          (rnd : Random dt_sample) (cTest cRef : list T)
          (s : St.state T Rng),
      (forall i j t r,
          verification cTest cRef s =
            (Return 1%Z,
             St.set_trace
               (rev (map Cerr (mismatch_report i j t r)) ++ St.trace s) s)
          <-> (i < kSizeN /\ j < kSizeM
               /\ cTest !! (i * kSizeM + j) = Some t
               /\ cRef !! (i * kSizeM + j) = Some r
               /\ exceeds t r = Some true
               /\ passes_before cTest cRef i j))
      /\ (verification cTest cRef s = (Normal tt, s)
          <-> forall i j, i < kSizeN -> j < kSizeM ->
                exists t r,
                  cTest !! (i * kSizeM + j) = Some t
                  /\ cRef !! (i * kSizeM + j) = Some r
                  /\ exceeds t r = Some false))
  /\ (forall t r eps,
        epsilon (DT := float_DataType) = Some eps ->
        (SFabs (SFsub Float.prec32 Float.emax32 t r) = eps ->
         exceeds (DT := float_DataType) t r = Some false)
        /\ (SFabs (SFsub Float.prec32 Float.emax32 t r)
            = SFsucc Float.prec32 Float.emax32 eps ->
            exceeds (DT := float_DataType) t r = Some true))
  /\ (forall t r eps,
        epsilon (DT := double_DataType) = Some eps ->
        (SFabs (SFsub Float.prec64 Float.emax64 t r) = eps ->
         exceeds (DT := double_DataType) t r = Some false)
        /\ (SFabs (SFsub Float.prec64 Float.emax64 t r)
            = SFsucc Float.prec64 Float.emax64 eps ->
            exceeds (DT := double_DataType) t r = Some true))
  /\ (forall it t r eps,
        epsilon (DT := int_DataType it) = Some eps ->
        (forall d, int_minus it t r ≫= int_abs it = Some d -> d = eps ->
           exceeds (DT := int_DataType it) t r = Some false)
        /\ (forall d, int_minus it t r ≫= int_abs it = Some d ->
              d = (eps + 1)%Z ->
              exceeds (DT := int_DataType it) t r = Some true)).
Proof.
  split; [|split; [|split]].
  - intros T DT cfg rnd cTest cRef s. split.
    + intros i j t r. rewrite verification_Return.
      apply scan_coords_Mismatch.
    + rewrite verification_Normal, scan_coords_Pass.
      split; intros H i j Hi Hj; apply judge_Pass; by apply H.
  - intros t r eps. rewrite float_epsilon. intros [= <-].
    unfold exceeds. rewrite float_epsilon. cbn.
    split; intros ->; reflexivity.
  - intros t r eps. rewrite double_epsilon. intros [= <-].
    unfold exceeds. rewrite double_epsilon. cbn.
    split; intros ->; reflexivity.
  - intros it t r eps Heps. unfold exceeds. rewrite Heps. cbn.
    split; intros d -> ->; cbn; f_equal.
    + apply Z.ltb_irrefl.
    + apply Z.ltb_lt. lia.
Qed.

Lemma tolerance_boundary_witness :
  exceeds (DT := float_DataType)
    (S754_finite false 8589935 (-33)) (S754_zero false) = Some false
  /\ exceeds (DT := float_DataType)
       (S754_finite false 8589936 (-33)) (S754_zero false) = Some true.
Proof.
  destruct tolerance_boundary as (_ & Hfloat & _).
  destruct (Hfloat (S754_finite false 8589935 (-33)) (S754_zero false)
              (S754_finite false 8589935 (-33)) eq_refl) as [Hle _].
  destruct (Hfloat (S754_finite false 8589936 (-33)) (S754_zero false)
              (S754_finite false 8589935 (-33)) eq_refl) as [_ Hgt].
  split; [apply Hle | apply Hgt]; reflexivity.
Defined.

Section Continuation.
Context {T : Type} {DT : DataType T} {cfg : Config} {rnd : Random dt_sample}.

Local Abbreviation state := (St.state T Rng).
Implicit Type s : state.
Implicit Types cTest cRef : list T.

(** A [return] statement ends [main]: what follows is not run. *)
Lemma bind_Return {A B} (m : M A) (k : A -> M B) s c s' :
  m s = (Return c, s') -> (m ≫= k) s = (Return c, s').
Proof. unfold mbind, M_bind. by intros ->. Qed.

Lemma passes_before_agree cTest cRef cTest' cRef' i j :
  (forall k, k <= i * kSizeM + j ->
     cTest' !! k = cTest !! k /\ cRef' !! k = cRef !! k) ->
  passes_before cTest cRef i j -> passes_before cTest' cRef' i j.
Proof.
  intros Hag Hb i' j' Hi' Hj' Hlt.
  destruct (Hag (i' * kSizeM + j')) as [E1 E2]; [lia|].
  rewrite (judge_agree cTest cRef) by done. by apply Hb.
Qed.

End Continuation.

(** At a signed promoted type the comparison is defined exactly when
    the difference and its absolute value fit, and it then tells
    whether the two values differ. *)
Lemma int_exceeds_closed it (t r : Z) :
  (0 < it_bits it)%Z -> it_signed (promote it) = true ->
  exceeds (DT := int_DataType it) t r
  = if (it_min (promote it) <? t - r)%Z && (t - r <=? it_max (promote it))%Z
    then Some (negb (t =? r)%Z) else None.
Proof.
  intros Hb Hs.
  rewrite int_exceeds_unfold, int_of_double_lit, (in_range_0 it Hb).
  unfold int_minus, int_abs, in_range. rewrite Hs.
  destruct (Z.leb_spec (it_min (promote it)) (t - r));
    destruct (Z.ltb_spec (it_min (promote it)) (t - r));
    destruct (Z.leb_spec (t - r) (it_max (promote it)));
    cbn [andb mbind option_bind]; try lia; try reflexivity.
  - destruct (Z.eqb_spec (t - r) (it_min (promote it))); [lia|].
    cbn [mbind option_bind]. f_equal.
    destruct (Z.eqb_spec t r) as [->|Hne]; cbn [negb].
    + by rewrite Z.sub_diag.
    + apply Z.ltb_lt. lia.
  - destruct (Z.eqb_spec (t - r) (it_min (promote it))); [done|lia].
Qed.

(** C9, as amended: at a signed integer element type the tolerance
    [1e-3] converts to zero, so a difference that is defined exceeds
    it exactly when it is not zero, that is when the two values
    differ, and the verification loop runs to its end exactly when the
    accelerator and the reference hold the same value at every
    coordinate.  The difference is defined when it fits the promoted
    type together with its absolute value; at an element type narrower
    than [int] this is so for all values of the type.  The loop then
    reports the first coordinate at which the two values differ.
    Where the difference overflows, as it can at [int], the comparison
    is undefined and no mismatch is reported. *)
Theorem integral_exact_equality (it : int_type) (cfg : Config)
    (rnd : Random Z) (cTest cRef : list Z) (s : St.state Z Rng) :
  (0 < it_bits it)%Z ->
  it_signed (promote it) = true ->
  epsilon (DT := int_DataType it) = Some 0%Z
  /\ (forall t r d,
        int_minus it t r ≫= int_abs it = Some d ->
        exceeds (DT := int_DataType it) t r = Some true <-> d <> 0%Z)
  /\ (forall t r b,
        exceeds (DT := int_DataType it) t r = Some b -> b = true <-> t <> r)
  /\ (verification (DT := int_DataType it) cTest cRef s = (Normal tt, s)
      <-> forall i j, i < kSizeN -> j < kSizeM ->
            exists v,
              cTest !! (i * kSizeM + j) = Some v
              /\ cRef !! (i * kSizeM + j) = Some v)
  /\ (forall t r,
        exceeds (DT := int_DataType it) t r
        = if (it_min (promote it) <? t - r)%Z
             && (t - r <=? it_max (promote it))%Z
          then Some (negb (t =? r)%Z) else None)
  /\ (forall t r,
        (it_bits it < 32)%Z ->
        in_range it t = true -> in_range it r = true ->
        exceeds (DT := int_DataType it) t r = Some (negb (t =? r)%Z))
  /\ (forall i j t r,
        i < kSizeN -> j < kSizeM ->
        cTest !! (i * kSizeM + j) = Some t ->
        cRef !! (i * kSizeM + j) = Some r ->
        t <> r ->
        (it_min (promote it) < t - r <= it_max (promote it))%Z ->
        (forall i' j', i' < kSizeN -> j' < kSizeM ->
           i' * kSizeM + j' < i * kSizeM + j ->
           cTest !! (i' * kSizeM + j') = cRef !! (i' * kSizeM + j')) ->
        verification (DT := int_DataType it) cTest cRef s
        = (Return 1%Z,
           St.set_trace
             (rev (map Cerr (mismatch_report i j t r)) ++ St.trace s) s)).
Proof.
  intros Hb Hs. split; [by apply int_epsilon|].
  split; [|split; [|split; [|split; [|split]]]].
  - intros t r d Hd. rewrite int_exceeds_unfold, Hd, int_of_double_lit.
    rewrite (in_range_0 it Hb). cbn [mbind option_bind].
    assert (0 <= d)%Z.
    { unfold int_minus, int_abs in Hd. rewrite Hs in Hd.
      destruct (in_range (promote it) (t - r)); [|done].
      cbn [mbind option_bind] in Hd.
      destruct (t - r =? it_min (promote it))%Z; [done|].
      injection Hd as <-. lia. }
    split.
    + intros [= E]. apply Z.ltb_lt in E. lia.
    + intros Hne. f_equal. apply Z.ltb_lt. lia.
  - apply int_exceeds.
  - rewrite verification_Normal, scan_coords_Pass. split.
    + intros H i j Hi Hj.
      destruct (proj1 (judge_Pass _ _ _ _) (H i j Hi Hj))
        as (t & r & Ht & Hr & Hx).
      exists t. split; [done|]. rewrite Hr. f_equal.
      apply int_exceeds in Hx. destruct (decide (t = r)); [done|].
      by apply Hx in n.
    + intros H i j Hi Hj. apply judge_Pass.
      destruct (H i j Hi Hj) as (v & Ht & Hr). exists v, v.
      do 2 (split; [done|]). by apply int_exceeds_same.
  - intros t r. by apply int_exceeds_closed.
  - intros t r Hn Ht Hr. rewrite int_exceeds_closed by done.
    assert (Hp : promote it = int_).
    { unfold promote. by apply Z.ltb_lt in Hn as ->. }
    rewrite Hp.
    assert (Hpow : (2 ^ it_bits it <= 2 ^ 31)%Z)
      by (apply Z.pow_le_mono_r; lia).
    assert (Hhalf : (2 ^ it_bits it = 2 * 2 ^ (it_bits it - 1))%Z).
    { rewrite <- Z.pow_succ_r by lia. f_equal. lia. }
    assert (Hpos : (0 < 2 ^ (it_bits it - 1))%Z)
      by (apply Z.pow_pos_nonneg; lia).
    change (2 ^ 31)%Z with 2147483648%Z in Hpow.
    unfold in_range, it_min, it_max in Ht, Hr.
    apply andb_true_iff in Ht as [Ht1 Ht2], Hr as [Hr1 Hr2].
    apply Z.leb_le in Ht1, Ht2, Hr1, Hr2.
    change (it_min int_) with (-2147483648)%Z.
    change (it_max int_) with 2147483647%Z.
    replace (-2147483648 <? t - r)%Z with true
      by (symmetry; apply Z.ltb_lt; destruct (it_signed it); lia).
    by replace (t - r <=? 2147483647)%Z with true
      by (symmetry; apply Z.leb_le; destruct (it_signed it); lia).
  - intros i j t r Hi Hj Ht Hr Hne [Hlo Hhi] Hbefore.
    rewrite verification_Return, scan_coords_Mismatch.
    do 4 (split; [done|]). split.
    + rewrite int_exceeds_closed by done.
      replace (_ <? _)%Z with true by (symmetry; by apply Z.ltb_lt).
      replace (_ <=? _)%Z with true by (symmetry; by apply Z.leb_le).
      cbn [andb]. do 2 f_equal. apply negb_true_iff. by apply Z.eqb_neq.
    + intros i' j' Hi' Hj' Hlt. apply judge_Pass.
      apply lookup_lt_Some in Ht as Hlen.
      destruct (lookup_lt_is_Some_2 cTest (i' * kSizeM + j')) as [v Hv];
        [lia|].
      exists v, v. split; [done|]. split; [|by apply int_exceeds_same].
      by rewrite <- (Hbefore i' j' Hi' Hj' Hlt).
Qed.

Lemma integral_exact_equality_witness :
  epsilon (DT := int_DataType short_) = Some 0%Z
  /\ exceeds (DT := int_DataType short_) (-32768)%Z 32767%Z = Some true
  /\ verification (DT := int_DataType short_) (cfg := Example.cfg)
       (rnd := Example.lcg) [48; 84; 41; 91]%Z [48; 84; 42; 90]%Z
       Example.start
     = (Return 1%Z,
        St.set_trace
          (rev (map Cerr (mismatch_report 1 0 41%Z 42%Z))
           ++ St.trace Example.start)
          Example.start).
Proof.
  destruct (integral_exact_equality short_ Example.cfg Example.lcg
              [48; 84; 41; 91]%Z [48; 84; 42; 90]%Z Example.start)
    as (Heps & _ & _ & _ & _ & Hnarrow & Hloop).
  - reflexivity.
  - reflexivity.
  - split; [exact Heps|]. split.
    + apply (Hnarrow (-32768)%Z 32767%Z); reflexivity.
    + apply (Hloop 1 0 41%Z 42%Z); try reflexivity.
      * vm_compute. lia.
      * vm_compute. lia.
      * discriminate.
      * vm_compute. split; [reflexivity|discriminate].
      * intros [|[|i']] [|[|j']] Hi' Hj' Hlt; vm_compute in Hi', Hj', Hlt;
          try lia; reflexivity.
Defined.

(** At [int] two values whose difference is the least value of the
    type differ, and yet no mismatch is reported: the behaviour of the
    comparison is undefined. *)
Lemma integral_exact_equality_counterexample :
  (-2147483600)%Z <> 48%Z
  /\ exceeds (DT := int_DataType int_) (-2147483600)%Z 48%Z = None
  /\ verification (DT := int_DataType int_) (cfg := Example.cfg)
       (rnd := Example.lcg) [-2147483600; 84; 42; 90]%Z [48; 84; 42; 90]%Z
       Example.start
     = (Undefined, Example.start).
Proof. split; [discriminate|]. split; vm_compute; reflexivity. Qed.

(** ** The command line *)

Section CommandLine.
Context {T : Type} {DT : DataType T} {cfg : Config} {rnd : Random dt_sample}.

Local Abbreviation state := (St.state T Rng).
Implicit Type s : state.

(** What [parse_arguments] does from the initial state *)
Lemma parse_arguments_init env prog args :
  parse_arguments (prog :: args) (init_state env) =
    if accepted args then
      (Normal tt,
       parsed_state env (selects_emulation args) (selects_verify args))
    else
      (Return 1%Z,
       rejected_state env
         ((length args <=? 2) && selects_emulation args) true).
Proof.
  assert (Hwp : wp (parse_arguments (prog :: args))
            (fun o s' =>
               (o, s') =
                 if accepted args then
                   (Normal tt,
                    parsed_state env (selects_emulation args)
                      (selects_verify args))
                 else
                   (Return 1%Z,
                    rejected_state env
                      ((length args <=? 2) && selects_emulation args) true))
            (init_state env)).
  { unfold parse_arguments, init_state, rejected_state, parsed_state.
    destruct args as [|a1 [|a2 [|a3 rest]]];
      cbn [length Nat.ltb Nat.leb lookup list_lookup accepted
           selects_emulation selects_verify andb];
      wp_run; cbn [orb andb negb]; rewrite ?orb_true_r; reflexivity. }
  unfold wp in Hwp. by destruct (parse_arguments (prog :: args) (init_state env)).
Qed.

(** [accepted] says what the specification asks of the
    arguments. *)
Lemma accepted_spec args :
  accepted args = true <->
  length args <= 2
  /\ (forall mode, args !! 0 = Some mode -> mode = "hw" \/ mode = "hw_emu")
  /\ (forall check, args !! 1 = Some check -> check = "on" \/ check = "off").
Proof.
  destruct args as [|a1 [|a2 [|a3 rest]]]; cbn [accepted length].
  - split; [|done]. intros _. split; [lia|]. by split; intros ? [=].
  - rewrite orb_true_iff, !String.eqb_eq. split.
    + intros H. split; [lia|]. split; [by intros ? [= <-]|by intros ? [=]].
    + intros (_ & H & _). by apply H.
  - rewrite andb_true_iff, !orb_true_iff, !String.eqb_eq. split.
    + intros [H1 H2]. split; [lia|]. by split; intros ? [= <-].
    + intros (_ & H1 & H2). split; [by apply H1|by apply H2].
  - split; [done|]. intros (H & _). cbn in H. lia.
Qed.
End CommandLine.

(** ** Properties of traces, decided by evaluation *)

Section Traces.
Context {T : Type}.
Implicit Type p : action T -> bool.

Lemma existsb_replicate_app p n x l :
  p x = false -> existsb p (replicate n x ++ l) = existsb p l.
Proof. intros H. induction n as [|n IH]; [done|]. cbn. by rewrite H. Qed.

Lemma forallb_replicate_app p n x l :
  p x = true -> forallb p (replicate n x ++ l) = forallb p l.
Proof. intros H. induction n as [|n IH]; [done|]. cbn. by rewrite H. Qed.

Lemma omap_replicate_app {B} (f : action T -> option B) n x l :
  f x = None -> omap f (replicate n x ++ l) = omap f l.
Proof. intros H. induction n as [|n IH]; [done|]. cbn. by rewrite H. Qed.

Lemma elem_of_existsb p (l : list (action T)) :
  existsb p l = true <-> exists x, x ∈ l /\ p x = true.
Proof.
  rewrite existsb_exists. by setoid_rewrite list_elem_of_In.
Qed.
End Traces.

(** Evaluation of [existsb], [forallb] and the projections on a trace
    built from known actions and runs of [CallDist] *)
Ltac trace_cbn :=
  cbn [existsb forallb omap list_omap orb andb negb app map rev before
       is_runtime_call is_transfer is_host_work is_launch is_reference].

Ltac trace_eval :=
  unfold stderr_of, stdout_of, raised_of, launches_of, programs_of,
    uploads_of, environment_of, mismatch_report;
  trace_cbn;
  repeat (rewrite ?existsb_replicate_app, ?forallb_replicate_app,
            ?omap_replicate_app by reflexivity;
          progress trace_cbn).

Section Runs.
Context {T : Type} {DT : DataType T} {cfg : Config} {rnd : Random dt_sample}.
Variable rt : Runtime T.

Local Abbreviation state := (St.state T Rng).
Implicit Type s : state.

(** A run with a rejected command line ends in [parse_arguments]. *)
Lemma run_rejected env prog args :
  accepted args = false ->
  run rt env (prog :: args) =
    (Return 1%Z,
     rejected_state env ((length args <=? 2) && selects_emulation args) true).
Proof.
  intros H. unfold run, main. apply bind_Return.
  by rewrite parse_arguments_init, H.
Qed.

(** A postcondition of a run with an accepted command line can be
    established on what follows [parse_arguments]. *)
Lemma run_accepted env prog args (Q : outcome unit -> state -> Prop) :
  accepted args = true ->
  wp (initialize_host ;; session rt ;; check_result ;; return_ 0%Z) Q
     (parsed_state env (selects_emulation args) (selects_verify args)) ->
  Q (run rt env (prog :: args)).1 (run rt env (prog :: args)).2.
Proof.
  intros H Hwp. unfold run, main.
  change (wp (parse_arguments (prog :: args) ;;
              initialize_host ;; session rt ;; check_result ;; return_ 0%Z)
            Q (init_state env)).
  apply wp_bind. eapply wp_eq.
  { rewrite parse_arguments_init, H. reflexivity. }
  exact Hwp.
Qed.

Lemma run_rejected_trace env prog args :
  accepted args = false ->
  let s := (run rt env (prog :: args)).2 in
  stdout_of (St.trace s) = [usage]
  /\ stderr_of (St.trace s) = []
  /\ existsb is_runtime_call (St.trace s) = false.
Proof.
  intros H. rewrite (run_rejected env prog args H). cbn [snd].
  unfold rejected_state, parsed_state. cbn [St.trace St.set_trace].
  by destruct (_ && _).
Qed.
End Runs.

(** The states of a run after an accepted command line, one goal for
    each way the run can go *)
Ltac run_cases :=
  lazymatch goal with
  | |- context [run ?rt ?env (?prog :: ?args)] =>
      pattern (run rt env (prog :: args)).1, (run rt env (prog :: args)).2;
      apply run_accepted; [assumption|]
  end;
  destruct (selects_emulation _) eqn:?, (selects_verify _) eqn:?;
  try match goal with
      | H : false = true |- _ => discriminate H
      | H : true = false |- _ => discriminate H
      end;
  unfold parsed_state; cbn [app]; wp_run.

(** C5: the first argument, if present, must be [hw] or [hw_emu] and
    the second, if present, [on] or [off]; absent arguments stand for
    [hw] and [on].  With any other value, or with more than two
    arguments, the run prints the usage text, returns 1 and makes no
    call into the accelerator runtime; with accepted arguments the
    usage text is not printed and the run goes on to open the
    accelerator context.  The four argument lists of the specification are
    accepted and its three faulty ones are not. *)
Theorem command_line_validation :
  (forall args,
     accepted args = true <->
     length args <= 2
     /\ (forall mode, args !! 0 = Some mode -> mode = "hw" \/ mode = "hw_emu")
     /\ (forall check, args !! 1 = Some check ->
           check = "on" \/ check = "off"))
  /\ (forall (T : Type) (DT : DataType T) (cfg : Config)
             (rnd : Random dt_sample) (rt : Runtime T)
             (env : gmap string string) (prog : string) (args : list string),
        let r := run rt env (prog :: args) in
        (accepted args = false ->
           r.1 = Return 1%Z
           /\ stdout_of (St.trace r.2) = [usage]
           /\ stderr_of (St.trace r.2) = []
           /\ existsb is_runtime_call (St.trace r.2) = false)
        /\ (accepted args = true ->
              existsb prints_usage (St.trace r.2) = false
              /\ NewContext ∈ St.trace r.2
              /\ St.emulation r.2 = selects_emulation args
              /\ St.verify r.2 = selects_verify args))
  /\ (selects_emulation [] = false /\ selects_verify [] = true
      /\ selects_verify ["hw"] = true /\ selects_emulation ["hw"] = false)
  /\ accepted ["hw"; "on"] = true
  /\ accepted ["hw_emu"; "off"] = true
  /\ accepted [] = true
  /\ accepted ["hw"] = true
  /\ accepted ["foo"] = false
  /\ accepted ["hw"; "maybe"] = false
  /\ (forall a1 a2 a3 rest, accepted (a1 :: a2 :: a3 :: rest) = false).
Proof.
  split; [apply accepted_spec|]. split; [|by repeat split].
  intros T DT cfg rnd rt env prog args r. subst r. split.
  - intros H. split; [by rewrite run_rejected|].
    by apply run_rejected_trace.
  - intros H.
    enough (existsb prints_usage (St.trace (run rt env (prog :: args)).2)
              = false
            /\ existsb (fun x => match x with NewContext => true | _ => false end)
                 (St.trace (run rt env (prog :: args)).2) = true
            /\ St.emulation (run rt env (prog :: args)).2
               = selects_emulation args
            /\ St.verify (run rt env (prog :: args)).2 = selects_verify args)
      as (H1 & H2 & H3 & H4).
    { split; [done|]. split; [|done].
      apply elem_of_existsb in H2 as (x & Hin & Hx). by destruct x. }
    run_cases; (split; [|split; [|done]]); trace_eval; reflexivity.
Qed.

(** ** Mode, environment and image *)

(** C7: in a run with accepted arguments the variable
    [XCL_EMULATION_MODE] ends up set to [hw_emu] exactly when the mode
    [hw_emu] was selected and unset otherwise, whatever it held before;
    no other variable changes; and the only image ever given to the
    device is [MatrixMultiplication_hw_emu.xclbin] in mode [hw_emu] and
    [MatrixMultiplication_hw.xclbin] in mode [hw], which is loaded once
    the context has been created.  The environment is changed by the
    unsetting at the start and, in mode [hw_emu], the setting that
    follows it, and by nothing else. *)
Theorem environment_and_image (T : Type) (DT : DataType T) (cfg : Config)
    (rnd : Random dt_sample) (rt : Runtime T) (env : gmap string string)
    (prog : string) (args : list string) :
  accepted args = true ->
  let s := (run rt env (prog :: args)).2 in
  let emu := selects_emulation args in
  (emu = true <-> args !! 0 = Some "hw_emu")
  /\ St.emulation s = emu
  /\ St.environ s !! "XCL_EMULATION_MODE"
     = (if emu then Some "hw_emu" else None)
  /\ (forall name, name <> "XCL_EMULATION_MODE" ->
        St.environ s !! name = env !! name)
  /\ environment_of (St.trace s)
     = UnsetEnvironmentVariable "XCL_EMULATION_MODE"
       :: (if emu then [SetEnvironmentVariable "XCL_EMULATION_MODE" "hw_emu"]
           else [])
  /\ St.path s = (if emu then "MatrixMultiplication_hw_emu.xclbin"
                  else "MatrixMultiplication_hw.xclbin")
  /\ (forall p, p ∈ programs_of (St.trace s) -> p = St.path s)
  /\ (is_ok (rt_Context rt) = true -> programs_of (St.trace s) = [St.path s]).
Proof.
  intros H s emu. subst s emu. split.
  { destruct args as [|mode args]; [done|]. cbn.
    rewrite String.eqb_eq. split; [by intros ->|by intros [= ->]]. }
  enough (St.emulation (run rt env (prog :: args)).2 = selects_emulation args
          /\ St.environ (run rt env (prog :: args)).2
             = (if selects_emulation args then
                  <["XCL_EMULATION_MODE" := "hw_emu"]>
                    (delete "XCL_EMULATION_MODE" env)
                else delete "XCL_EMULATION_MODE" env)
          /\ environment_of (St.trace (run rt env (prog :: args)).2)
             = UnsetEnvironmentVariable "XCL_EMULATION_MODE"
               :: (if selects_emulation args
                   then [SetEnvironmentVariable "XCL_EMULATION_MODE" "hw_emu"]
                   else [])
          /\ St.path (run rt env (prog :: args)).2
             = (if selects_emulation args
                then "MatrixMultiplication_hw_emu.xclbin"
                else "MatrixMultiplication_hw.xclbin")
          /\ (programs_of (St.trace (run rt env (prog :: args)).2) = []
              \/ programs_of (St.trace (run rt env (prog :: args)).2)
                 = [St.path (run rt env (prog :: args)).2])
          /\ (is_ok (rt_Context rt) = true ->
              programs_of (St.trace (run rt env (prog :: args)).2)
              = [St.path (run rt env (prog :: args)).2]))
    as (Hemu & Henv & Hact & Hpath & Hprog & Hload).
  { split; [done|]. rewrite Henv.
    split; [|split; [|split; [done|split; [done|split]]]].
    - destruct (selects_emulation args).
      + apply lookup_insert_eq.
      + apply lookup_delete_eq.
    - intros name Hname. destruct (selects_emulation args).
      + rewrite lookup_insert_ne, lookup_delete_ne; done.
      + rewrite lookup_delete_ne; done.
    - intros p Hp. destruct Hprog as [E|E]; rewrite E in Hp.
      + by apply elem_of_nil in Hp.
      + by apply list_elem_of_singleton in Hp.
    - done. }
  run_cases;
    (split; [reflexivity|]); (split; [reflexivity|]); trace_eval;
    (split; [reflexivity|]); (split; [reflexivity|]);
    (split; [first [by left | by right] | first [done | reflexivity]]).
Qed.

Lemma environment_and_image_witness :
  let s := (Example.run_int Example.good
              {["XCL_EMULATION_MODE" := "sw_emu"]}
              ["RunHardware.exe"; "hw"; "on"]).2 in
  St.environ s !! "XCL_EMULATION_MODE" = None
  /\ programs_of (St.trace s) = ["MatrixMultiplication_hw.xclbin"].
Proof.
  destruct (environment_and_image Z Example.int_dt Example.cfg Example.lcg
              Example.good {["XCL_EMULATION_MODE" := "sw_emu"]}
              "RunHardware.exe" ["hw"; "on"] eq_refl)
    as (_ & _ & Henv & _ & _ & Hpath & _ & Hload).
  split; [exact Henv|].
  unfold Example.run_int. rewrite (Hload eq_refl), Hpath. reflexivity.
Defined.

(** ** Verification switched off *)

(** C4: with verification off a run draws no operand, packs nothing,
    computes no reference and copies nothing to or from the device,
    whatever the runtime does; the engine is left as seeded and the
    host vectors stay empty.  If no call into the runtime raises, the
    run still launches the kernel once, returns 0 and prints the time
    [t] that the kernel reported and the throughput, which is the
    quotient by [t] of a number fixed by the sizes: the [double]
    [1e-9] times the [float] product [2 * kSizeN * kSizeK * kSizeM],
    divided by [t].  Nothing else of the run enters the figure.  With
    verification on the operands are generated and packed and, if no
    call raises, the three buffers are copied to the device, the
    result is copied back and the reference is computed. *)
Theorem verify_off_skips_work (T : Type) (DT : DataType T) (cfg : Config)
    (rnd : Random dt_sample) (rt : Runtime T) (env : gmap string string)
    (prog : string) (args : list string) :
  accepted args = true ->
  let r := run rt env (prog :: args) in
  let ver := selects_verify args in
  (ver = false <-> args !! 1 = Some "off")
  /\ St.verify r.2 = ver
  /\ (ver = false ->
        existsb is_host_work (St.trace r.2) = false
        /\ existsb is_transfer (St.trace r.2) = false
        /\ St.rng r.2 = default_random_engine kSeed
        /\ St.a r.2 = [] /\ St.b r.2 = [] /\ St.cRef r.2 = []
        /\ St.aMem r.2 = [] /\ St.bMem r.2 = [] /\ St.cMem r.2 = [])
  /\ (ver = true ->
        St.a r.2 = generated_a /\ St.b r.2 = generated_b
        /\ St.aMem r.2 = Pack kMemoryWidth generated_a
        /\ St.bMem r.2 = Pack kMemoryWidth generated_b
        /\ existsb is_host_work (St.trace r.2) = true)
  /\ (raised_of (St.trace r.2) = [] ->
        (exists da db dc t t' out,
           launches_of (St.trace r.2) = [(da, db, dc)]
           /\ rt_ExecuteTask rt da db dc = Ok (t, t', out)
           /\ exists rest,
                let float_of := fun n : nat =>
                  Float.of_Z Float.prec32 Float.emax32 (Z.of_nat n) in
                let times := SFmul Float.prec32 Float.emax32 in
                let operations :=
                  times (times (times (float_of 2) (float_of kSizeN))
                           (float_of kSizeK))
                    (float_of kSizeM) in
                stdout_of (St.trace r.2)
                = progress_to_launch ver
                  ++ [Str "Kernel executed in "; Dbl t;
                      Str " seconds, corresponding to a performance of ";
                      Dbl (SFdiv Float.prec64 Float.emax64
                             (SFmul Float.prec64 Float.emax64
                                (SFdiv Float.prec64 Float.emax64
                                   (Float.of_Z Float.prec64 Float.emax64 1)
                                   (Float.of_Z Float.prec64 Float.emax64
                                      (10 ^ 9)))
                                (Float.to_double operations))
                             t);
                      Str (" GOp/s." ++ nl)]
                  ++ rest
                /\ (ver = false -> rest = [] /\ r.1 = Return 0%Z))
        /\ (ver = true ->
              uploads_of (St.trace r.2)
              = [(aDevice, Pack kMemoryWidth generated_a);
                 (bDevice, Pack kMemoryWidth generated_b);
                 (cDevice, Pack kMemoryWidth zeros)]
              /\ CopyToHost cDevice ∈ St.trace r.2
              /\ CallReferenceImplementation ∈ St.trace r.2
              /\ St.cRef r.2 = reference_result)).
Proof.
  intros H r ver. subst r ver. split.
  { destruct args as [|mode [|check args]]; [done..|]. cbn.
    rewrite negb_false_iff, String.eqb_eq.
    split; [by intros ->|by intros [= ->]]. }
  unfold generated_a, generated_b, reference_result, zeros.
  run_cases; (split; [reflexivity|]);
    (split;
       [ intros E; first [discriminate E | trace_eval; by repeat split]
       | split;
         [ intros E; first [discriminate E | trace_eval; by repeat split]
         | trace_eval; intros E; first [discriminate E | clear E] ] ]).
  (* the runs in which nothing is raised reach the launch *)
  all: repeat match goal with p : (_ * _)%type |- _ => destruct p end.
  all: split;
    [ do 6 eexists; split; [reflexivity|]; split; [eassumption|];
      eexists; cbv zeta; split;
        [ cbn [progress_to_launch app fst]; reflexivity
        | intros E; first [discriminate E | by split] ]
    | intros E; first [discriminate E | idtac] ].
  all: split; [reflexivity|].
  all: split; [|split; [|reflexivity]];
    repeat first [apply list_elem_of_here | apply list_elem_of_further].
Qed.

Lemma verify_off_skips_work_witness :
  let r := Example.run_int Example.good ∅ ["RunHardware.exe"; "hw"; "off"] in
  let r' := Example.run_int Scenario.slow ∅ ["RunHardware.exe"; "hw"; "off"] in
  existsb is_host_work (St.trace r.2) = false
  /\ existsb is_transfer (St.trace r.2) = false
  /\ St.a r.2 = [] /\ r.1 = Return 0%Z
  /\ stdout_of (St.trace r.2)
     = [Str "Initializing host memory..."; Str (" Done." ++ nl);
        Str ("Initializing OpenCL context..." ++ nl);
        Str ("Programming device..." ++ nl);
        Str ("Initializing device memory..." ++ nl);
        Str ("Creating kernel..." ++ nl); Str ("Executing kernel..." ++ nl);
        Str "Kernel executed in ";
        Dbl (S754_finite false 4503599627370496 (-52));
        Str " seconds, corresponding to a performance of ";
        Dbl (S754_finite false 4835703278458517 (-78));
        Str (" GOp/s." ++ nl)]
  /\ stdout_of (St.trace r'.2)
     = [Str "Initializing host memory..."; Str (" Done." ++ nl);
        Str ("Initializing OpenCL context..." ++ nl);
        Str ("Programming device..." ++ nl);
        Str ("Initializing device memory..." ++ nl);
        Str ("Creating kernel..." ++ nl); Str ("Executing kernel..." ++ nl);
        Str "Kernel executed in ";
        Dbl (S754_finite false 4503599627370496 (-51));
        Str " seconds, corresponding to a performance of ";
        Dbl (S754_finite false 4835703278458517 (-79));
        Str (" GOp/s." ++ nl)].
Proof.
  destruct (verify_off_skips_work Z Example.int_dt Example.cfg Example.lcg
              Example.good ∅ "RunHardware.exe" ["hw"; "off"] eq_refl)
    as (_ & _ & Hoff & _ & Hquiet).
  destruct (verify_off_skips_work Z Example.int_dt Example.cfg Example.lcg
              Scenario.slow ∅ "RunHardware.exe" ["hw"; "off"] eq_refl)
    as (_ & _ & _ & _ & Hquiet').
  destruct (Hoff eq_refl) as (Hwork & Htransfer & _ & Ha & _).
  destruct Hquiet
    as ((da & db & dc & t & ? & ? & _ & Hk & rest & Hout & Hexit) & _).
  { vm_compute. reflexivity. }
  destruct Hquiet'
    as ((da' & db' & dc' & t' & ? & ? & _ & Hk' & rest' & Hout' & Hexit') & _).
  { vm_compute. reflexivity. }
  destruct (Hexit eq_refl) as [-> Hret].
  destruct (Hexit' eq_refl) as [-> _].
  cbn in Hk, Hk'. injection Hk as <- _ _. injection Hk' as <- _ _.
  do 4 (split; [assumption|]).
  split.
  - refine (eq_trans Hout _). vm_compute. reflexivity.
  - refine (eq_trans Hout' _). vm_compute. reflexivity.
Defined.

(** ** The first mismatch ends the run *)

Section FailFast.
Context {T : Type} {DT : DataType T} {cfg : Config} {rnd : Random dt_sample}.

Local Abbreviation state := (St.state T Rng).
Implicit Type s : state.
Implicit Types cTest cRef : list T.

(** What the loop does from any state *)
Lemma verification_cases cTest cRef s :
  let '(o, s') := verification cTest cRef s in
  (o = Normal tt /\ s' = s)
  \/ (o = Undefined /\ s' = s)
  \/ exists i j t r,
       o = Return 1%Z
       /\ St.trace s' = rev (map Cerr (mismatch_report i j t r)) ++ St.trace s
       /\ stderr_of (St.trace s')
          = stderr_of (St.trace s) ++ mismatch_report i j t r
       /\ (forall k : unit -> M unit,
             (verification cTest cRef ≫= k) s = (Return 1%Z, s'))
       /\ i < kSizeN /\ j < kSizeM
       /\ cTest !! (i * kSizeM + j) = Some t
       /\ cRef !! (i * kSizeM + j) = Some r
       /\ exceeds t r = Some true
       /\ passes_before cTest cRef i j
       /\ (forall cTest' cRef',
             (forall k, k <= i * kSizeM + j ->
                cTest' !! k = cTest !! k /\ cRef' !! k = cRef !! k) ->
             verification cTest' cRef' s = (o, s')).
Proof.
  destruct (verification cTest cRef s) as [o s'] eqn:Hrun.
  rewrite verification_scan in Hrun.
  destruct (scan cTest cRef coords) as [|i j t r|] eqn:Hscan;
    cbn [conclude] in Hrun; injection Hrun as <- <-.
  - by left.
  - right. right. exists i, j, t, r.
    pose proof (proj1 (scan_coords_Mismatch _ _ _ _ _ _) Hscan)
      as (Hi & Hj & Ht & Hr & Hx & Hb).
    split; [done|]. split; [by destruct s|].
    split.
    { destruct s. unfold stderr_of.
      cbn [St.trace St.set_trace omap list_omap rev app map
           mismatch_report].
      by rewrite <- !app_assoc. }
    split.
    { intros k. apply bind_Return.
      by rewrite verification_scan, Hscan. }
    do 6 (split; [done|]).
    intros cTest' cRef' Hag. rewrite verification_scan.
    replace (scan cTest' cRef' coords) with (Mismatch i j t r); [done|].
    symmetry. apply scan_coords_Mismatch.
    destruct (Hag (i * kSizeM + j)) as [E1 E2]; [lia|].
    rewrite E1, E2. do 5 (split; [done|]).
    by apply (passes_before_agree cTest cRef).
  - right. by left.
Qed.

(** The verdict on the result of a verifying run in which no call
    into the runtime raises decides how the run ends. *)
Lemma run_verdict (rt : Runtime T) env prog args :
  accepted args = true ->
  selects_verify args = true ->
  let r := run rt env (prog :: args) in
  raised_of (St.trace r.2) = [] ->
  match scan (Unpack (St.cMem r.2)) (St.cRef r.2) coords with
  | Pass => r.1 = Return 0%Z /\ stderr_of (St.trace r.2) = []
  | Mismatch i j testVal refVal =>
      r.1 = Return 1%Z
      /\ stderr_of (St.trace r.2) = mismatch_report i j testVal refVal
  | Undef => r.1 = Undefined /\ stderr_of (St.trace r.2) = []
  end.
Proof.
  intros H Hver r. subst r.
  run_cases;
    first
      [ match goal with E : scan _ _ coords = _ |- _ => rewrite E end;
        intros _; trace_eval; by split
      | intros E; exfalso; revert E; trace_eval; discriminate ].
Qed.
End FailFast.

(** C3: the verification loop visits the coordinates in row-major
    order and stops at the first mismatch: [main] returns 1 there and
    whatever follows the loop is skipped, the standard error stream
    receives the report of that one coordinate and nothing else, and
    the result does not depend on the elements at later coordinates.
    Otherwise the loop writes nothing.  A verifying run in which no
    call into the runtime raises returns 1 with that single report on
    the standard error stream when the loop finds a mismatch, and
    returns 0 with nothing on it when the loop finds none. *)
Theorem fail_fast (T : Type) (DT : DataType T) (cfg : Config)
    (rnd : Random dt_sample) :
  (forall (cTest cRef : list T) (s : St.state T Rng),
     let '(o, s') := verification cTest cRef s in
     (o = Normal tt /\ s' = s)
     \/ (o = Undefined /\ s' = s)
     \/ exists i j t r,
          o = Return 1%Z
          /\ St.trace s' = rev (map Cerr (mismatch_report i j t r)) ++ St.trace s
          /\ stderr_of (St.trace s')
             = stderr_of (St.trace s) ++ mismatch_report i j t r
          /\ (forall k : unit -> M unit,
                (verification cTest cRef ≫= k) s = (Return 1%Z, s'))
          /\ i < kSizeN /\ j < kSizeM
          /\ cTest !! (i * kSizeM + j) = Some t
          /\ cRef !! (i * kSizeM + j) = Some r
          /\ exceeds t r = Some true
          /\ passes_before cTest cRef i j
          /\ (forall cTest' cRef',
                (forall k, k <= i * kSizeM + j ->
                   cTest' !! k = cTest !! k /\ cRef' !! k = cRef !! k) ->
                verification cTest' cRef' s = (o, s')))
  /\ (forall (rt : Runtime T) (env : gmap string string) (prog : string)
             (args : list string),
        accepted args = true ->
        selects_verify args = true ->
        let r := run rt env (prog :: args) in
        raised_of (St.trace r.2) = [] ->
        match scan (Unpack (St.cMem r.2)) (St.cRef r.2) coords with
        | Pass => r.1 = Return 0%Z /\ stderr_of (St.trace r.2) = []
        | Mismatch i j testVal refVal =>
            r.1 = Return 1%Z
            /\ stderr_of (St.trace r.2) = mismatch_report i j testVal refVal
        | Undef => r.1 = Undefined /\ stderr_of (St.trace r.2) = []
        end).
Proof.
  split.
  - apply verification_cases.
  - apply run_verdict.
Qed.

Lemma fail_fast_witness :
  let r := Example.run_int Example.idle ∅ ["RunHardware.exe"] in
  r.1 = Return 1%Z
  /\ stderr_of (St.trace r.2) = mismatch_report 0 0 0%Z 48%Z.
Proof.
  destruct (fail_fast Z Example.int_dt Example.cfg Example.lcg) as [_ Hrun].
  specialize (Hrun Example.idle ∅ "RunHardware.exe" [] eq_refl eq_refl).
  vm_compute in Hrun. vm_compute. exact (Hrun eq_refl).
Defined.

(** ** Errors of the accelerator runtime *)

(** C6, as amended: when a call into the runtime, whether it creates
    the context, programs the device, allocates a buffer, copies
    between host and device or runs the kernel, raises a
    [std::runtime_error], the run prints the message of that error to
    the standard error stream and returns 1.  It is the only error of
    the run, the call that raised it is the last call into the
    runtime, and nothing follows it but the error report.  The
    statement is about the class that the handler of line 119 names. *)
Theorem runtime_error_is_fatal (T : Type) (DT : DataType T) (cfg : Config)
    (rnd : Random dt_sample) (rt : Runtime T) (env : gmap string string)
    (prog : string) (args : list string) (what : string) :
  let r := run rt env (prog :: args) in
  runtime_error what ∈ raised_of (St.trace r.2) ->
  r.1 = Return 1%Z
  /\ stderr_of (St.trace r.2) = failure_report what
  /\ raised_of (St.trace r.2) = [runtime_error what]
  /\ exists call pre,
       St.trace r.2
       = rev (map Cerr (failure_report what))
         ++ Raised (runtime_error what) :: call :: pre
       /\ is_runtime_call call = true
       /\ raised_of pre = [].
Proof.
  intros r. subst r. destruct (accepted args) eqn:H.
  - run_cases; trace_eval; intros Hin;
      try (by apply elem_of_nil in Hin);
      apply list_elem_of_singleton in Hin;
      first [discriminate Hin | injection Hin as ->].
    all: (split; [reflexivity|]); (split; [reflexivity|]);
      (split; [reflexivity|]);
      eexists _, _; (split; [reflexivity|]); (split; [reflexivity|]);
      trace_eval; reflexivity.
  - rewrite (run_rejected rt env prog args H). cbn [snd].
    unfold rejected_state, parsed_state. cbn [St.trace St.set_trace].
    destruct (_ && _); cbn; intros Hin; by apply elem_of_nil in Hin.
Qed.

Lemma runtime_error_is_fatal_witness :
  let r := Example.run_int Example.no_device ∅ ["RunHardware.exe"] in
  r.1 = Return 1%Z
  /\ stderr_of (St.trace r.2) = failure_report "no device".
Proof.
  destruct (runtime_error_is_fatal Z Example.int_dt Example.cfg Example.lcg
              Example.no_device ∅ "RunHardware.exe" [] "no device")
    as (Hexit & Herr & _).
  - vm_compute. apply list_elem_of_here.
  - split; [exact Hexit | exact Herr].
Defined.

(** An error of the runtime that is not a [std::runtime_error] is not
    caught: the run prints no message and returns no status. *)
Lemma runtime_error_is_fatal_counterexample :
  let r := Example.run_int Scenario.misconfigured ∅ ["RunHardware.exe"] in
  raised_of (St.trace r.2) = [other_exception]
  /\ r.1 = Throw other_exception
  /\ r.1 <> Return 1%Z
  /\ stderr_of (St.trace r.2) = [].
Proof. vm_compute. by repeat split. Qed.

(** ** The output buffer at the launch of the kernel *)

(** C10: the output buffer is allocated with write access.  In a
    verifying run the harness copies three buffers to the device before
    it launches the kernel: the two packed operands and the packed
    result buffer, which holds zeros only, so that the kernel starts
    on an output region that is all zeros.  With verification off
    nothing is copied and the kernel starts on whatever the allocation
    left in the three buffers. *)
Theorem output_buffer_initialised (T : Type) (DT : DataType T) (cfg : Config)
    (rnd : Random dt_sample) (rt : Runtime T) (env : gmap string string)
    (prog : string) (args : list string) (da db dc : list (list T)) :
  accepted args = true ->
  let s := (run rt env (prog :: args)).2 in
  (da, db, dc) ∈ launches_of (St.trace s) ->
  MakeBuffer cDevice write bank1 (kSizeN * kSizeM / kMemoryWidth) ∈ St.trace s
  /\ launches_of (St.trace s) = [(da, db, dc)]
  /\ if selects_verify args then
       uploads_of (before is_launch (St.trace s))
       = [(aDevice, Pack kMemoryWidth generated_a);
          (bDevice, Pack kMemoryWidth generated_b);
          (cDevice, Pack kMemoryWidth zeros)]
       /\ da = Pack kMemoryWidth generated_a
       /\ db = Pack kMemoryWidth generated_b
       /\ dc = Pack kMemoryWidth zeros
       /\ dc = replicate (kSizeN * kSizeM / kMemoryWidth)
                 (replicate kMemoryWidth dt_zero)
     else
       uploads_of (St.trace s) = []
       /\ exists ga gb gc,
            rt_MakeBuffer rt aDevice = Ok ga
            /\ rt_MakeBuffer rt bDevice = Ok gb
            /\ rt_MakeBuffer rt cDevice = Ok gc
            /\ da = packs_of (kSizeN * kSizeK / kMemoryWidth) ga
            /\ db = packs_of (kSizeK * kSizeM / kMemoryWidth) gb
            /\ dc = packs_of (kSizeN * kSizeM / kMemoryWidth) gc.
Proof.
  intros H s. subst s. unfold generated_a, generated_b, zeros.
  run_cases; trace_eval; intros Hin;
    try (by apply elem_of_nil in Hin);
    apply list_elem_of_singleton in Hin; injection Hin as -> -> ->;
    (split;
       [ repeat first [apply list_elem_of_here | apply list_elem_of_further]
       | split; [reflexivity|] ]).
  all: try (do 4 (split; [reflexivity|]); apply Pack_replicate).
  all: split; [reflexivity|]; eexists _, _, _; by repeat split.
Qed.

Lemma output_buffer_initialised_witness :
  let s := (Example.run_int Example.good ∅ ["RunHardware.exe"]).2 in
  launches_of (St.trace s)
  = [([[6; 6]; [5; 7]]%Z, [[7; 4]; [1; 10]]%Z, [[0; 0]; [0; 0]]%Z)]
  /\ uploads_of (before is_launch (St.trace s))
     = [(aDevice, [[6; 6]; [5; 7]]%Z); (bDevice, [[7; 4]; [1; 10]]%Z);
        (cDevice, [[0; 0]; [0; 0]]%Z)].
Proof.
  destruct (output_buffer_initialised Z Example.int_dt Example.cfg
              Example.lcg Example.good ∅ "RunHardware.exe" []
              [[6; 6]; [5; 7]]%Z [[7; 4]; [1; 10]]%Z [[0; 0]; [0; 0]]%Z
              eq_refl)
    as (_ & Hlaunch & Hup & _).
  - vm_compute. apply list_elem_of_here.
  - split; [exact Hlaunch | exact Hup].
Defined.

(** ** Operands and reference *)

Section Operands.
Context {T : Type} {DT : DataType T} {cfg : Config} {rnd : Random dt_sample}.

(** Whatever holds of every value the distribution returns holds of
    every sample behind the operands. *)
Lemma draws_Forall (P : dt_sample -> Prop) n g :
  (forall g', P (dist 1 10 g').1) ->
  Forall (fun v => exists x, P x /\ v = dt_of_sample x) (draws n g).1.
Proof.
  intros HP. revert g. induction n as [|n IH]; intros g; [constructor|].
  cbn [draws]. specialize (HP g). destruct (dist 1 10 g) as [x g'].
  specialize (IH g'). destruct (draws n g') as [xs g'']. cbn in *.
  constructor; [by exists x|done].
Qed.

(** The operands and the reference of a verifying run *)
Lemma operands_of_run (rt : Runtime T) env prog args :
  accepted args = true ->
  selects_verify args = true ->
  let s := (run rt env (prog :: args)).2 in
  St.a s = generated_a
  /\ St.b s = generated_b
  /\ St.cRef s
     = (if existsb is_reference (St.trace s) then reference_result
        else zeros)
  /\ (raised_of (St.trace s) = [] ->
      existsb is_reference (St.trace s) = true).
Proof.
  intros H Hver s. subst s.
  unfold generated_a, generated_b, reference_result, zeros.
  run_cases;
    (split; [reflexivity|]); (split; [reflexivity|]);
    trace_eval; (split; [reflexivity|]);
    intros E; first [reflexivity | discriminate E].
Qed.

Lemma is_reference_elem_of (tr : list (action T)) :
  CallReferenceImplementation ∈ tr <-> existsb is_reference tr = true.
Proof.
  rewrite elem_of_existsb. split.
  - intros Hin. by exists CallReferenceImplementation.
  - intros (x & Hin & Hx). by destruct x.
Qed.
End Operands.

(** C8: two verifying runs under the same configuration and seed hold
    the same operands and, where both compute it, the same reference
    result, whatever the runtime, the environment and the mode of each
    run: the operands are [generated_a] and [generated_b], functions of
    the seed alone, and the reference is [ReferenceImplementation] of
    these.  The operands have the sizes of the matrices and each
    element is the conversion of a value returned by the distribution
    over 1 to 10, so that whatever the distribution guarantees of its
    values holds of all of them. *)
Theorem reference_determinism (T : Type) (DT : DataType T) (cfg : Config)
    (rnd : Random dt_sample) (rt1 rt2 : Runtime T)
    (env1 env2 : gmap string string) (prog1 prog2 : string)
    (args1 args2 : list string) :
  accepted args1 = true -> selects_verify args1 = true ->
  accepted args2 = true -> selects_verify args2 = true ->
  let s1 := (run rt1 env1 (prog1 :: args1)).2 in
  let s2 := (run rt2 env2 (prog2 :: args2)).2 in
  St.a s1 = St.a s2 /\ St.b s1 = St.b s2
  /\ (CallReferenceImplementation ∈ St.trace s1 ->
      CallReferenceImplementation ∈ St.trace s2 ->
      St.cRef s1 = St.cRef s2)
  /\ St.a s1 = generated_a /\ St.b s1 = generated_b
  /\ (CallReferenceImplementation ∈ St.trace s1 ->
      St.cRef s1 = ReferenceImplementation generated_a generated_b zeros)
  /\ (raised_of (St.trace s1) = [] ->
      CallReferenceImplementation ∈ St.trace s1)
  /\ length (St.a s1) = kSizeN * kSizeK
  /\ length (St.b s1) = kSizeK * kSizeM
  /\ forall P : dt_sample -> Prop,
       (forall g, P (dist 1 10 g).1) ->
       Forall (fun v => exists x, P x /\ v = dt_of_sample x)
         (St.a s1 ++ St.b s1).
Proof.
  intros H1 V1 H2 V2 s1 s2. subst s1 s2.
  destruct (operands_of_run rt1 env1 prog1 args1 H1 V1)
    as (Ha1 & Hb1 & Hc1 & Hr1).
  destruct (operands_of_run rt2 env2 prog2 args2 H2 V2)
    as (Ha2 & Hb2 & Hc2 & _).
  rewrite Ha1, Hb1, Ha2, Hb2. do 2 (split; [reflexivity|]).
  split.
  { intros R1 R2. apply is_reference_elem_of in R1, R2.
    by rewrite Hc1, Hc2, R1, R2. }
  do 2 (split; [reflexivity|]). split.
  { intros R1. apply is_reference_elem_of in R1. by rewrite Hc1, R1. }
  split.
  { intros R. apply is_reference_elem_of. by apply Hr1. }
  unfold generated_a, generated_b. rewrite !length_draws.
  do 2 (split; [reflexivity|]).
  intros P HP. apply Forall_app. split; by apply draws_Forall.
Qed.

Lemma reference_determinism_witness :
  let s1 := (Example.run_int Example.good ∅ ["RunHardware.exe"; "hw"]).2 in
  let s2 := (Example.run_int Example.no_device
               {["XCL_EMULATION_MODE" := "sw_emu"]}
               ["RunHardware.exe"; "hw_emu"; "on"]).2 in
  St.a s1 = St.a s2 /\ St.b s1 = St.b s2
  /\ Forall (fun v => exists x, (1 <= x <= 10)%Z /\ v = wrap int_ x)
       (St.a s1 ++ St.b s1).
Proof.
  destruct (reference_determinism Z Example.int_dt Example.cfg Example.lcg
              Example.good Example.no_device ∅
              {["XCL_EMULATION_MODE" := "sw_emu"]}
              "RunHardware.exe" "RunHardware.exe" ["hw"] ["hw_emu"; "on"]
              eq_refl eq_refl eq_refl eq_refl)
    as (Ha & Hb & _ & _ & _ & _ & _ & _ & _ & Hrange).
  split; [exact Ha|]. split; [exact Hb|].
  apply (Hrange (fun x => (1 <= x <= 10)%Z)).
  intros g. cbn. change (10 - 1 + 1)%Z with 10%Z.
  pose proof (Z.mod_pos_bound ((16807 * g) mod 2147483647) 10 eq_refl).
  lia.
Defined.
(** ** The order of the calls into the runtime *)

(** Evaluation of [runtime_calls_of] on the trace of a run *)
Ltac calls_eval :=
  unfold runtime_calls_of, lifecycle;
  cbn [omap list_omap is_runtime_call outline app rev];
  repeat (rewrite ?omap_replicate_app by reflexivity;
          progress cbn [omap list_omap is_runtime_call outline app rev]).

(** X1: the calls that a run makes into the runtime are an initial
    part of one fixed sequence: the context, the image of the selected
    mode, the three buffers with their access, bank and size, in a
    verifying run the three copies to the device, the kernel
    [MatrixMultiplicationKernel] over the three buffers, its launch
    and, in a verifying run, the copy of the result.  No call is made
    twice or out of order; the sequence is complete when no call
    raises; a rejected command line makes none. *)
Theorem runtime_call_order (T : Type) (DT : DataType T) (cfg : Config)
    (rnd : Random dt_sample) (rt : Runtime T) (env : gmap string string)
    (prog : string) (args : list string) :
  let r := run rt env (prog :: args) in
  let calls := runtime_calls_of (St.trace r.2) in
  let all := lifecycle (selects_emulation args) (selects_verify args) in
  if accepted args then
    calls `prefix_of` all
    /\ (raised_of (St.trace r.2) = [] -> calls = all)
  else calls = [].
Proof.
  intros r calls all. subst r calls all. destruct (accepted args) eqn:H.
  - run_cases; calls_eval; trace_eval;
      (split;
         [ eexists; reflexivity
         | intros E; first [reflexivity | discriminate E] ]).
  - rewrite (run_rejected rt env prog args H). cbn [snd].
    unfold rejected_state, parsed_state. cbn [St.trace St.set_trace].
    by destruct (_ && _).
Qed.

(** ** Exceptions that the handler does not name *)

(** X2: the handler of line 119 names [std::runtime_error] only.  When
    a call into the runtime raises any other exception, the exception
    leaves [main]: no status is returned, nothing is written to the
    standard error stream, and the raising call is the last thing the
    run does.  Conversely an exception leaves [main] only in this way:
    a [std::runtime_error] never does. *)
Theorem other_exception_propagates (T : Type) (DT : DataType T)
    (cfg : Config) (rnd : Random dt_sample) (rt : Runtime T)
    (env : gmap string string) (prog : string) (args : list string) :
  let r := run rt env (prog :: args) in
  (other_exception ∈ raised_of (St.trace r.2) ->
     r.1 = Throw other_exception
     /\ stderr_of (St.trace r.2) = []
     /\ raised_of (St.trace r.2) = [other_exception]
     /\ exists call pre,
          St.trace r.2 = Raised other_exception :: call :: pre
          /\ is_runtime_call call = true
          /\ raised_of pre = [])
  /\ (forall e, r.1 = Throw e ->
        e = other_exception /\ raised_of (St.trace r.2) = [other_exception]).
Proof.
  intros r. subst r. destruct (accepted args) eqn:H.
  - run_cases; trace_eval;
      (split;
         [ intros Hin;
           try (by apply elem_of_nil in Hin);
           apply list_elem_of_singleton in Hin;
           first
             [ discriminate Hin
             | clear Hin; do 3 (split; [reflexivity|]);
               eexists _, _; (split; [reflexivity|]);
               (split; [reflexivity|]); trace_eval; reflexivity ]
         | intros e E; first [discriminate E | injection E as <-; by split] ]).
  - rewrite (run_rejected rt env prog args H). cbn [fst snd].
    unfold rejected_state, parsed_state. cbn [St.trace St.set_trace].
    split; [|intros e [=]].
    destruct (_ && _); cbn; intros Hin; by apply elem_of_nil in Hin.
Qed.

Lemma other_exception_propagates_witness :
  let r :=
    Example.run_int Scenario.crash ∅ ["RunHardware.exe"; "hw"; "off"] in
  r.1 = Throw other_exception /\ stderr_of (St.trace r.2) = [].
Proof.
  destruct (other_exception_propagates Z Example.int_dt Example.cfg
              Example.lcg Scenario.crash ∅ "RunHardware.exe" ["hw"; "off"])
    as [Hraise _].
  destruct Hraise as (Hexit & Herr & _).
  - vm_compute. apply list_elem_of_here.
  - split; [exact Hexit | exact Herr].
Defined.

(** ** The exit status *)

(** The five facts about the status of a run, at the end of one way a
    run with an accepted command line can go *)
Ltac status_leaf :=
  (split;
     [ first [ by left | by right; left | by right; right; left
             | by right; right; right ] | ]);
  (split;
     [ split;
       [ intros E;
         first
           [ discriminate E
           | split; [reflexivity|]; split; [reflexivity|];
             intros V; first [discriminate V | assumption] ]
       | intros (_ & E & V);
         first
           [ reflexivity
           | discriminate E
           | match goal with
             | Hs : scan _ _ coords = _ |- _ => rewrite Hs in V
             end;
             discriminate (V eq_refl) ] ] | ]);
  (split;
     [ split;
       [ intros E;
         first
           [ split; reflexivity
           | change (false = true) in E; discriminate E ]
       | intros [E V]; first [discriminate E | discriminate V | reflexivity] ]
     | ]);
  (split;
     [ intros E;
       first
         [ discriminate E
         | do 3 (split; [reflexivity|]); assumption ] | ]);
  (split;
     [ intros E; first [discriminate E | right; discriminate]
     | intros [E|E];
       [ discriminate E
       | first [reflexivity | exfalso; apply E; reflexivity] ] ]).

(** X3: how a run can end, and what its status means.  A run returns
    0, returns 1, lets an exception other than [std::runtime_error]
    escape, or has undefined behaviour in the verification loop; no
    other status is returned.  It returns 0 exactly when the command
    line is accepted, no call into the runtime raises and, with
    verification on, every coordinate passes.  The line
    [Successfully verified.] is printed exactly in the verifying runs
    that return 0.  Status 1 comes with a message on the standard
    error stream except for a rejected command line, which leaves that
    stream empty. *)
Theorem exit_status (T : Type) (DT : DataType T) (cfg : Config)
    (rnd : Random dt_sample) (rt : Runtime T) (env : gmap string string)
    (prog : string) (args : list string) :
  let r := run rt env (prog :: args) in
  (r.1 = Return 0%Z \/ r.1 = Return 1%Z \/ r.1 = Throw other_exception
   \/ r.1 = Undefined)
  /\ (r.1 = Return 0%Z <->
        accepted args = true
        /\ raised_of (St.trace r.2) = []
        /\ (selects_verify args = true ->
            scan (Unpack (St.cMem r.2)) (St.cRef r.2) coords = Pass))
  /\ (existsb reports_success (St.trace r.2) = true <->
        r.1 = Return 0%Z /\ selects_verify args = true)
  /\ (r.1 = Undefined ->
        accepted args = true /\ selects_verify args = true
        /\ raised_of (St.trace r.2) = []
        /\ scan (Unpack (St.cMem r.2)) (St.cRef r.2) coords = Undef)
  /\ (r.1 = Return 1%Z <->
        accepted args = false \/ stderr_of (St.trace r.2) <> []).
Proof.
  intros r. subst r. destruct (accepted args) eqn:H.
  - run_cases; trace_eval; status_leaf.
  - rewrite (run_rejected rt env prog args H). cbn [fst snd].
    unfold rejected_state, parsed_state. cbn [St.trace St.set_trace].
    split; [by right; left|].
    split; [split; [intros [=]|by intros [[=] _]]|].
    split; [split; [|by intros [[=] _]]|].
    { by destruct (_ && _). }
    split; [intros [=]|]. split; [by left|done].
Qed.

(** ** What a run leaves behind whatever the runtime does *)

Section Frame.
Context {T : Type} {DT : DataType T} {cfg : Config} {rnd : Random dt_sample}.

(** Drawing [n + m] values is drawing [n] and then [m]. *)
Lemma draws_add n m g :
  draws (n + m) g =
    ((draws n g).1 ++ (draws m (draws n g).2).1,
     (draws m (draws n g).2).2).
Proof.
  revert g. induction n as [|n IH]; intros g.
  - cbn. by destruct (draws m g).
  - cbn [Nat.add draws]. destruct (dist 1 10 g) as [x g'].
    rewrite IH. destruct (draws n g') as [xs g'']. cbn.
    by destruct (draws m g'').
Qed.

Lemma draws_made_replicate n (l : list (action T)) :
  omap (fun x => match x with CallDist => Some tt | _ => None end)
    (replicate n CallDist ++ l)
  = replicate n tt
    ++ omap (fun x => match x with CallDist => Some tt | _ => None end) l.
Proof. induction n as [|n IH]; [done|]. cbn. by rewrite IH. Qed.

Lemma accepted_length args : accepted args = true -> (length args <=? 2) = true.
Proof. by destruct args as [|a1 [|a2 [|a3 rest]]]. Qed.

(** The environment, the engine and the draws at the end of a run
    with an accepted command line *)
Lemma run_frame (rt : Runtime T) env prog args :
  accepted args = true ->
  let s := (run rt env (prog :: args)).2 in
  St.environ s
    = (if selects_emulation args then
         <["XCL_EMULATION_MODE" := "hw_emu"]>
           (delete "XCL_EMULATION_MODE" env)
       else delete "XCL_EMULATION_MODE" env)
  /\ environment_of (St.trace s)
     = UnsetEnvironmentVariable "XCL_EMULATION_MODE"
       :: (if selects_emulation args
           then [SetEnvironmentVariable "XCL_EMULATION_MODE" "hw_emu"]
           else [])
  /\ (if selects_verify args then
        St.rng s
        = (draws (kSizeK * kSizeM)
             (draws (kSizeN * kSizeK) (default_random_engine kSeed)).2).2
        /\ draws_made (St.trace s) = kSizeN * kSizeK + kSizeK * kSizeM
        /\ draws_made (before opens_context (St.trace s))
           = kSizeN * kSizeK + kSizeK * kSizeM
      else
        St.rng s = default_random_engine kSeed
        /\ draws_made (St.trace s) = 0).
Proof.
  intros H s. subst s.
  run_cases; (split; [reflexivity|]);
    (split; [trace_eval; reflexivity|]);
    unfold draws_made, mismatch_report;
    cbn [before opens_context omap list_omap rev map app];
    rewrite ?draws_made_replicate; cbn [omap list_omap];
    rewrite ?draws_made_replicate; cbn [omap list_omap];
    rewrite ?length_app, ?length_replicate; cbn [length];
    rewrite ?Nat.add_0_r;
    repeat split; first [reflexivity | apply Nat.add_comm].
Qed.
End Frame.

Section Environment.
Context {T : Type} {DT : DataType T} {cfg : Config} {rnd : Random dt_sample}.

(** The environment in which a run with the given arguments ends *)
Lemma run_environ (rt : Runtime T) env prog args :
  let s := (run rt env (prog :: args)).2 in
  St.environ s
    = (if mode_seen args then
         <["XCL_EMULATION_MODE" := "hw_emu"]>
           (delete "XCL_EMULATION_MODE" env)
       else delete "XCL_EMULATION_MODE" env)
  /\ environment_of (St.trace s)
     = UnsetEnvironmentVariable "XCL_EMULATION_MODE"
       :: (if mode_seen args
           then [SetEnvironmentVariable "XCL_EMULATION_MODE" "hw_emu"]
           else []).
Proof.
  intros s. subst s. unfold mode_seen. destruct (accepted args) eqn:H.
  - rewrite (accepted_length args H). cbn [andb].
    destruct (run_frame rt env prog args H) as (E1 & E2 & _). by split.
  - rewrite (run_rejected rt env prog args H). cbn [snd].
    unfold rejected_state, parsed_state.
    by destruct (_ && _).
Qed.
End Environment.

(** X4: what a run does to the environment, for every command line.
    The variable [XCL_EMULATION_MODE] is removed first and set again to
    [hw_emu] only if there are at most two arguments and the first one
    is [hw_emu]; nothing else is touched.  This is so for a rejected
    command line as well: [hw_emu] followed by a faulty second argument
    leaves the variable set although the run prints the usage text and
    returns 1, while with more than two arguments the first one is not
    looked at.  The result does not depend on the runtime, and a second
    run with the same arguments leaves the environment as the first
    one left it. *)
Theorem environment_of_any_run (T : Type) (DT : DataType T) (cfg : Config)
    (rnd : Random dt_sample) (rt : Runtime T) (env : gmap string string)
    (prog : string) (args : list string) :
  let r := run rt env (prog :: args) in
  (mode_seen args = true <-> length args <= 2 /\ args !! 0 = Some "hw_emu")
  /\ St.environ r.2 !! "XCL_EMULATION_MODE"
     = (if mode_seen args then Some "hw_emu" else None)
  /\ (forall name, name <> "XCL_EMULATION_MODE" ->
        St.environ r.2 !! name = env !! name)
  /\ environment_of (St.trace r.2)
     = UnsetEnvironmentVariable "XCL_EMULATION_MODE"
       :: (if mode_seen args
           then [SetEnvironmentVariable "XCL_EMULATION_MODE" "hw_emu"]
           else [])
  /\ (forall check, check <> "on" -> check <> "off" ->
        args = ["hw_emu"; check] ->
        r.1 = Return 1%Z
        /\ St.environ r.2 !! "XCL_EMULATION_MODE" = Some "hw_emu")
  /\ (forall (rt' : Runtime T) (prog' : string),
        St.environ (run rt' (St.environ r.2) (prog' :: args)).2
        = St.environ r.2).
Proof.
  intros r. subst r.
  destruct (run_environ rt env prog args) as [Henv Hact].
  assert (Hvar : St.environ (run rt env (prog :: args)).2
                   !! "XCL_EMULATION_MODE"
                 = (if mode_seen args then Some "hw_emu" else None)).
  { rewrite Henv. destruct (mode_seen args).
    - apply lookup_insert_eq.
    - apply lookup_delete_eq. }
  split; [|split; [done|split; [|split; [done|split]]]].
  - unfold mode_seen. rewrite andb_true_iff, Nat.leb_le.
    destruct args as [|mode rest]; cbn.
    + split; [by intros [_ [=]]|by intros [_ [=]]].
    + rewrite String.eqb_eq.
      split; (intros [Hl E]; split; [done|]); [by rewrite E|by injection E].
  - intros name Hname. rewrite Henv. destruct (mode_seen args).
    + rewrite lookup_insert_ne, lookup_delete_ne; done.
    + rewrite lookup_delete_ne; done.
  - intros check Hon Hoff ->. split; [|by rewrite Hvar].
    rewrite run_rejected; [done|]. cbn.
    apply String.eqb_neq in Hon, Hoff. by rewrite Hon, Hoff.
  - intros rt' prog'.
    destruct (run_environ rt' (St.environ (run rt env (prog :: args)).2)
                prog' args) as [-> _].
    rewrite Henv. apply map_eq. intros name.
    destruct (decide (name = "XCL_EMULATION_MODE")) as [->|Hname];
      destruct (mode_seen args);
      rewrite ?lookup_insert_eq, ?lookup_delete_eq;
      rewrite ?lookup_insert_ne, ?lookup_delete_ne by done;
      rewrite ?lookup_insert_ne, ?lookup_delete_ne by done;
      done.
Qed.

(** ** Reads of the verification loop *)

Section Bounds.
Context {T : Type} {DT : DataType T} {cfg : Config} {rnd : Random dt_sample}.

Local Abbreviation state := (St.state T Rng).
Implicit Type s : state.
Implicit Types cTest cRef : list T.

(** A coordinate has no verdict when one of the two reads is out of
    bounds or the comparison has no defined result. *)
Lemma judge_Undef cTest cRef i j :
  judge cTest cRef (i, j) = Undef <->
  length cTest <= i * kSizeM + j
  \/ length cRef <= i * kSizeM + j
  \/ exists t r,
       cTest !! (i * kSizeM + j) = Some t
       /\ cRef !! (i * kSizeM + j) = Some r
       /\ exceeds t r = None.
Proof.
  unfold judge. rewrite <- !lookup_ge_None.
  destruct (cTest !! (i * kSizeM + j)) as [t|];
    [|split; [by left|done]].
  destruct (cRef !! (i * kSizeM + j)) as [r|];
    [|split; [by right; left|done]].
  destruct (exceeds t r) as [[]|] eqn:Ex.
  - split; [done|]. intros [[=]|[[=]|(t' & r' & [= <-] & [= <-] & E)]].
    by rewrite Ex in E.
  - split; [done|]. intros [[=]|[[=]|(t' & r' & [= <-] & [= <-] & E)]].
    by rewrite Ex in E.
  - split; [|done]. intros _. right. right. by exists t, r.
Qed.

Lemma verification_Undefined cTest cRef s :
  (verification cTest cRef s).1 = Undefined
  <-> scan cTest cRef coords = Undef.
Proof.
  rewrite verification_scan. by destruct (scan cTest cRef coords).
Qed.

Lemma verification_Normal_fst cTest cRef s :
  (verification cTest cRef s).1 = Normal tt
  <-> scan cTest cRef coords = Pass.
Proof.
  rewrite verification_scan. by destruct (scan cTest cRef coords).
Qed.

(** The loop runs to its end on vectors that are long enough and
    whose elements compare within the tolerance. *)
Lemma verification_passes cTest cRef s :
  kSizeN * kSizeM <= length cTest ->
  kSizeN * kSizeM <= length cRef ->
  (forall k t r, k < kSizeN * kSizeM ->
     cTest !! k = Some t -> cRef !! k = Some r ->
     exceeds t r = Some false) ->
  verification cTest cRef s = (Normal tt, s).
Proof.
  intros Ht Hr Hx. apply verification_Normal, scan_coords_Pass.
  intros i j Hi Hj. apply judge_Pass.
  assert (Hk : i * kSizeM + j < kSizeN * kSizeM) by nia.
  destruct (lookup_lt_is_Some_2 cTest (i * kSizeM + j)) as [t Et]; [lia|].
  destruct (lookup_lt_is_Some_2 cRef (i * kSizeM + j)) as [r Er]; [lia|].
  exists t, r. do 2 (split; [done|]). by apply (Hx (i * kSizeM + j)).
Qed.
End Bounds.

(** X5: the reads of the verification loop.  The loop has undefined
    behaviour exactly when, with every earlier coordinate passing, it
    comes to a coordinate whose index [i * kSizeM + j] lies beyond the
    end of the result or of the reference, or at which the comparison
    itself is undefined.  So a loop that runs to its end has read
    [kSizeN * kSizeM] elements of each vector: a result that is too
    short is never accepted.  On vectors of at least that length whose
    elements all compare with a defined result the behaviour is
    defined, and a matrix without rows or without columns is verified
    without a single read. *)
Theorem verification_reads (T : Type) (DT : DataType T) (cfg : Config)
    (rnd : Random dt_sample) (cTest cRef : list T) (s : St.state T Rng) :
  let o := (verification cTest cRef s).1 in
  (o = Undefined <->
     exists i j,
       i < kSizeN /\ j < kSizeM /\ passes_before cTest cRef i j
       /\ (length cTest <= i * kSizeM + j
           \/ length cRef <= i * kSizeM + j
           \/ exists t r,
                cTest !! (i * kSizeM + j) = Some t
                /\ cRef !! (i * kSizeM + j) = Some r
                /\ exceeds t r = None))
  /\ (o = Normal tt ->
        kSizeN * kSizeM <= length cTest /\ kSizeN * kSizeM <= length cRef)
  /\ (kSizeN * kSizeM <= length cTest ->
      kSizeN * kSizeM <= length cRef ->
      (forall t r, t ∈ cTest -> r ∈ cRef -> exceeds t r <> None) ->
      o <> Undefined)
  /\ (kSizeN = 0 \/ kSizeM = 0 -> verification cTest cRef s = (Normal tt, s)).
Proof.
  intros o. subst o.
  assert (Hundef :
    (verification cTest cRef s).1 = Undefined <->
    exists i j,
      i < kSizeN /\ j < kSizeM /\ passes_before cTest cRef i j
      /\ (length cTest <= i * kSizeM + j
          \/ length cRef <= i * kSizeM + j
          \/ exists t r,
               cTest !! (i * kSizeM + j) = Some t
               /\ cRef !! (i * kSizeM + j) = Some r
               /\ exceeds t r = None)).
  { rewrite verification_Undefined, scan_coords_first by done. split.
    - intros (i & j & Hi & Hj & Hu & Hb). exists i, j.
      do 3 (split; [done|]). by apply judge_Undef.
    - intros (i & j & Hi & Hj & Hb & Hu). exists i, j.
      do 2 (split; [done|]). split; [|done]. by apply judge_Undef. }
  split; [done|]. split; [|split].
  - rewrite verification_Normal_fst, scan_coords_Pass. intros H.
    destruct (Nat.eq_dec (kSizeN * kSizeM) 0) as [E|E]; [lia|].
    assert (0 < kSizeN /\ 0 < kSizeM) as [Hn Hm] by nia.
    specialize (H (kSizeN - 1) (kSizeM - 1) ltac:(lia) ltac:(lia)).
    apply judge_Pass in H as (t & r & Et & Er & _).
    apply lookup_lt_Some in Et, Er. split; nia.
  - intros Ht Hr Hx. rewrite Hundef.
    intros (i & j & Hi & Hj & _ & [H|[H|(t & r & Et & Er & E)]]);
      [nia..|].
    apply (Hx t r); [| |done]; by eapply list_elem_of_lookup_2.
  - intros H0. apply verification_Normal, scan_coords_Pass.
    intros i j Hi Hj. lia.
Qed.

Lemma verification_reads_witness :
  (verification (DT := float_DataType) (cfg := Example.cfg)
     (rnd := Scenario.lcg_real)
     [Scenario.two; S754_nan; Scenario.two; Scenario.two]
     [Scenario.two; Scenario.two; S754_infinity false; Scenario.two]
     (init_state (DT := float_DataType) (cfg := Example.cfg)
        (rnd := Scenario.lcg_real) ∅)).1
  <> Undefined.
Proof.
  apply (verification_reads spec_float float_DataType Example.cfg
           Scenario.lcg_real).
  - vm_compute. lia.
  - vm_compute. lia.
  - intros t r _ _. unfold exceeds. rewrite float_epsilon. discriminate.
Defined.

(** ** Values that the comparison cannot tell apart *)

(** The difference of a value with itself is a zero, or not a number
    when no difference exists. *)
Lemma SFsub_diag prec emax (t : spec_float) :
  SFsub prec emax t t = S754_zero false \/ SFsub prec emax t t = S754_nan.
Proof.
  destruct t as [[]|[]| |sg m e]; cbn [SFsub]; try (by left); try (by right).
  left. cbv zeta. by rewrite Z.sub_diag.
Qed.

Lemma SFsub_nan_l prec emax (r : spec_float) :
  SFsub prec emax S754_nan r = S754_nan.
Proof. reflexivity. Qed.

Lemma SFsub_nan_r prec emax (t : spec_float) :
  SFsub prec emax t S754_nan = S754_nan.
Proof. by destruct t. Qed.

Lemma float_exceeds (t r : spec_float) :
  exceeds (DT := float_DataType) t r
  = Some (SFltb (S754_finite false 8589935 (-33))
            (SFabs (SFsub Float.prec32 Float.emax32 t r))).
Proof. unfold exceeds. by rewrite float_epsilon. Qed.

Lemma double_exceeds (t r : spec_float) :
  exceeds (DT := double_DataType) t r
  = Some (SFltb (S754_finite false 4611686018427388 (-62))
            (SFabs (SFsub Float.prec64 Float.emax64 t r))).
Proof. unfold exceeds. by rewrite double_epsilon. Qed.

(** At both floating types a comparison with a value that is not a
    number, or of a value with itself, does not exceed the
    tolerance. *)
Lemma float_blind (t r : spec_float) :
  t = S754_nan \/ r = S754_nan \/ t = r ->
  exceeds (DT := float_DataType) t r = Some false
  /\ exceeds (DT := double_DataType) t r = Some false.
Proof.
  rewrite float_exceeds, double_exceeds.
  intros [-> | [-> | ->]]; rewrite ?SFsub_nan_l, ?SFsub_nan_r; [done..|].
  by destruct (SFsub_diag Float.prec32 Float.emax32 r) as [-> | ->],
       (SFsub_diag Float.prec64 Float.emax64 r) as [-> | ->].
Qed.

(** X6: at [float] and [double] the test [abs (testVal - refVal) > eps]
    is false as soon as one of the two values is not a number, since
    every comparison with such a value is false, and it is false for
    two equal values, infinities included.  So the verification loop
    reports no mismatch at a coordinate where the accelerator has
    produced a NaN: a result made of such values alone is verified
    against any reference. *)
Theorem nan_is_never_a_mismatch (cfg : Config) (rnd : Random spec_float)
    (cTest cRef : list spec_float) (s : St.state spec_float Rng) :
  kSizeN * kSizeM <= length cTest ->
  kSizeN * kSizeM <= length cRef ->
  (forall k t r, k < kSizeN * kSizeM ->
     cTest !! k = Some t -> cRef !! k = Some r ->
     t = S754_nan \/ r = S754_nan \/ t = r) ->
  verification (DT := float_DataType) cTest cRef s = (Normal tt, s)
  /\ verification (DT := double_DataType) cTest cRef s = (Normal tt, s)
  /\ (forall k t r, cTest !! k = Some t -> cRef !! k = Some r ->
        k < kSizeN * kSizeM ->
        exceeds (DT := float_DataType) t r = Some false
        /\ exceeds (DT := double_DataType) t r = Some false).
Proof.
  intros Ht Hr H. split; [|split].
  - apply (verification_passes (DT := float_DataType)); [done..|].
    intros k t r Hk Et Er. by apply float_blind, (H k).
  - apply (verification_passes (DT := double_DataType)); [done..|].
    intros k t r Hk Et Er. by apply float_blind, (H k).
  - intros k t r Et Er Hk. by apply float_blind, (H k).
Qed.

Lemma nan_is_never_a_mismatch_witness :
  verification (DT := float_DataType) (cfg := Example.cfg)
    (rnd := Scenario.lcg_real)
    [S754_nan; S754_nan; S754_nan; S754_nan]
    [Scenario.two; Scenario.two; Scenario.two; Scenario.two]
    (init_state (DT := float_DataType) (cfg := Example.cfg)
       (rnd := Scenario.lcg_real) ∅)
  = (Normal tt,
     init_state (DT := float_DataType) (cfg := Example.cfg)
       (rnd := Scenario.lcg_real) ∅).
Proof.
  refine (proj1 (nan_is_never_a_mismatch Example.cfg Scenario.lcg_real
                   [S754_nan; S754_nan; S754_nan; S754_nan]
                   [Scenario.two; Scenario.two; Scenario.two; Scenario.two]
                   _ _ _ _)).
  - vm_compute. lia.
  - vm_compute. lia.
  - intros [|[|[|[|k]]]] t r Hk [= <-] Er; by left.
Defined.

(** ** Overflow of the integer difference *)

(** X7: at a signed integer element type the comparison of line 138 is
    undefined exactly when the difference [testVal - refVal], taken at
    the promoted type, does not fit that type or is its least value,
    whose absolute value does not exist.  At an element type narrower
    than [int] this cannot happen for values of the type: the
    operands are promoted to [int], which holds every difference, and
    the comparison just tells whether the two values differ.  At [int]
    itself it happens, as for the greatest value against -1. *)
Theorem integer_difference_overflow (it : int_type) (t r : Z) :
  (0 < it_bits it)%Z ->
  it_signed (promote it) = true ->
  (exceeds (DT := int_DataType it) t r = None <->
     (t - r <= it_min (promote it) \/ it_max (promote it) < t - r)%Z)
  /\ ((it_bits it < 32)%Z ->
      in_range it t = true -> in_range it r = true ->
      exceeds (DT := int_DataType it) t r = Some (negb (t =? r)%Z))
  /\ exceeds (DT := int_DataType int_) (it_max int_) (-1)%Z = None
  /\ exceeds (DT := int_DataType int_) (it_min int_) 0%Z = None.
Proof.
  intros Hb Hs.
  assert (Hx : exceeds (DT := int_DataType it) t r
               = if in_range (promote it) (t - r)
                    && negb (t - r =? it_min (promote it))%Z
                 then Some (0 <? Z.abs (t - r))%Z else None).
  { rewrite int_exceeds_unfold, int_of_double_lit, (in_range_0 it Hb).
    unfold int_minus, int_abs. rewrite Hs.
    destruct (in_range (promote it) (t - r)); [|done].
    cbn [mbind option_bind andb].
    by destruct (t - r =? it_min (promote it))%Z. }
  split; [|split; [|by split]].
  - rewrite Hx. unfold in_range.
    destruct (Z.leb_spec (it_min (promote it)) (t - r));
      destruct (Z.leb_spec (t - r) (it_max (promote it)));
      destruct (Z.eqb_spec (t - r) (it_min (promote it)));
      cbn [andb negb]; split; try done; try lia.
  - intros Hn Ht Hr. rewrite Hx.
    assert (Hp : promote it = int_).
    { unfold promote. by apply Z.ltb_lt in Hn as ->. }
    rewrite Hp.
    assert (Hpow : (2 ^ it_bits it <= 2 ^ 31)%Z)
      by (apply Z.pow_le_mono_r; lia).
    assert (Hhalf : (2 ^ it_bits it = 2 * 2 ^ (it_bits it - 1))%Z).
    { rewrite <- Z.pow_succ_r by lia. f_equal. lia. }
    assert (Hpos : (0 < 2 ^ (it_bits it - 1))%Z)
      by (apply Z.pow_pos_nonneg; lia).
    change (2 ^ 31)%Z with 2147483648%Z in Hpow.
    unfold in_range, it_min, it_max in Ht, Hr.
    apply andb_true_iff in Ht as [Ht1 Ht2], Hr as [Hr1 Hr2].
    apply Z.leb_le in Ht1, Ht2, Hr1, Hr2.
    assert (Hd : (-2147483648 < t - r <= 2147483647)%Z)
      by (destruct (it_signed it); lia).
    replace (in_range int_ (t - r)) with true.
    2:{ symmetry. unfold in_range. apply andb_true_iff.
        change (it_min int_) with (-2147483648)%Z.
        change (it_max int_) with 2147483647%Z.
        split; apply Z.leb_le; lia. }
    change (it_min int_) with (-2147483648)%Z.
    replace (t - r =? -2147483648)%Z with false
      by (symmetry; apply Z.eqb_neq; lia).
    cbn [andb negb]. f_equal.
    destruct (Z.eqb_spec t r) as [->|Hne]; cbn [negb].
    + by rewrite Z.sub_diag.
    + apply Z.ltb_lt. lia.
Qed.

Lemma integer_difference_overflow_witness :
  exceeds (DT := int_DataType short_) 3%Z 5%Z = Some true.
Proof.
  destruct (integer_difference_overflow short_ 3 5) as (_ & H & _).
  - reflexivity.
  - reflexivity.
  - apply H; reflexivity.
Defined.

(** ** The throughput when the time is not a positive number *)

(** X8: the throughput of lines 106-108 is a quotient by the time the
    kernel reported, taken as it comes.  A time of zero gives an
    infinity or a NaN, a NaN gives a NaN, and an infinite time gives a
    zero or a NaN.  So the figure is a number other than zero, neither
    infinite nor a NaN, only if the time is such a number; and it is
    a zero only if the time is not zero and not a NaN. *)
Theorem throughput_of_degenerate_time (cfg : Config) :
  (forall s,
     performance (S754_zero s) = S754_nan
     \/ exists s', performance (S754_zero s) = S754_infinity s')
  /\ performance S754_nan = S754_nan
  /\ (forall s,
        performance (S754_infinity s) = S754_nan
        \/ exists s', performance (S754_infinity s) = S754_zero s')
  /\ (forall t s m e,
        performance t = S754_finite s m e ->
        exists s' m' e', t = S754_finite s' m' e')
  /\ (forall t s,
        performance t = S754_zero s ->
        (exists s', t = S754_infinity s')
        \/ exists s' m' e', t = S754_finite s' m' e').
Proof.
  unfold performance.
  set (x := SFmul Float.prec64 Float.emax64 Float.lit_1e_9 _).
  clearbody x. split; [|split; [|split; [|split]]].
  - intros s. destruct x; cbn [SFdiv]; by eauto.
  - by destruct x.
  - intros s. destruct x; cbn [SFdiv]; by eauto.
  - intros t s m e H. destruct t as [s'|s'| |s' m' e'].
    + by destruct x.
    + by destruct x.
    + by destruct x.
    + by exists s', m', e'.
  - intros t s H. destruct t as [s'|s'| |s' m' e'].
    + by destruct x.
    + left. by exists s'.
    + by destruct x.
    + right. by exists s', m', e'.
Qed.

(** ** The operands as one stream of samples *)

(** X9: a verifying run draws [kSizeN * kSizeK + kSizeK * kSizeM]
    values from the one engine seeded with [kSeed], all of them before
    the first call into the runtime: [a] is made of the first
    [kSizeN * kSizeK] of them and [b] of the ones that follow, so the
    two operands together are the first values of the stream in their
    order, and the engine is left where the stream ends.  A run with
    verification off or with a rejected command line draws nothing and
    leaves the engine as seeded. *)
Theorem operands_are_one_stream (T : Type) (DT : DataType T) (cfg : Config)
    (rnd : Random dt_sample) (rt : Runtime T) (env : gmap string string)
    (prog : string) (args : list string) :
  let r := run rt env (prog :: args) in
  let total := kSizeN * kSizeK + kSizeK * kSizeM in
  let stream := draws total (default_random_engine kSeed) in
  if accepted args && selects_verify args then
    St.a r.2 ++ St.b r.2 = stream.1
    /\ length (St.a r.2) = kSizeN * kSizeK
    /\ length (St.b r.2) = kSizeK * kSizeM
    /\ St.rng r.2 = stream.2
    /\ draws_made (St.trace r.2) = total
    /\ draws_made (before opens_context (St.trace r.2)) = total
  else
    St.rng r.2 = default_random_engine kSeed
    /\ draws_made (St.trace r.2) = 0.
Proof.
  intros r total stream. subst r total stream.
  destruct (accepted args) eqn:H; cbn [andb].
  - pose proof (run_frame rt env prog args H) as (_ & _ & Hd).
    cbn zeta in Hd. destruct (selects_verify args) eqn:Hver; [|done].
    destruct (operands_of_run rt env prog args H Hver) as (-> & -> & _).
    destruct Hd as (-> & -> & ->). rewrite draws_add.
    unfold generated_a, generated_b. by rewrite !length_draws.
  - rewrite (run_rejected rt env prog args H). cbn [snd].
    unfold rejected_state, parsed_state. by destruct (_ && _).
Qed.

(** ** The operands at an integer element type *)

(** A value of an integer type converts to itself. *)
Lemma wrap_in_range it (z : Z) :
  (0 < it_bits it)%Z -> in_range it z = true -> wrap it z = z.
Proof.
  intros Hb Hr. unfold in_range, it_min, it_max in Hr.
  apply andb_true_iff in Hr as [Hlo Hhi]. apply Z.leb_le in Hlo, Hhi.
  assert (Hhalf : (2 ^ it_bits it = 2 * 2 ^ (it_bits it - 1))%Z).
  { rewrite <- Z.pow_succ_r by lia. f_equal. lia. }
  assert (Hpos : (0 < 2 ^ (it_bits it - 1))%Z)
    by (apply Z.pow_pos_nonneg; lia).
  unfold wrap, it_max. destruct (it_signed it); cbn [andb].
  - destruct (Z.le_gt_cases 0 z) as [Hz|Hz].
    + rewrite Z.mod_small by lia.
      by replace (_ <? z)%Z with false by (symmetry; apply Z.ltb_ge; lia).
    + replace (z mod 2 ^ it_bits it)%Z with (z + 2 ^ it_bits it)%Z.
      2:{ apply Z.mod_unique with (-1)%Z; lia. }
      replace (_ <? _)%Z with true by (symmetry; apply Z.ltb_lt; lia).
      lia.
  - apply Z.mod_small. lia.
Qed.

(** X10: at an integer element type that holds the value 10, every
    element of the two operands of a verifying run is an integer from
    1 to 10, provided the distribution [dist(1, 10)] returns values of
    its interval: a sample is of type [unsigned long], and its
    conversion to the element type of line 65 then leaves it as it
    is. *)
Theorem integer_operands_in_interval (it : int_type) (cfg : Config)
    (rnd : Random Z) (rt : Runtime Z) (env : gmap string string)
    (prog : string) (args : list string) :
  (0 < it_bits it)%Z ->
  (10 <= it_max it)%Z ->
  (forall g, 1 <= (dist 1 10 g).1 <= 10)%Z ->
  accepted args = true ->
  selects_verify args = true ->
  let r := run (DT := int_DataType it) rt env (prog :: args) in
  Forall (fun v => (1 <= v <= 10)%Z) (St.a r.2)
  /\ Forall (fun v => (1 <= v <= 10)%Z) (St.b r.2)
  /\ length (St.a r.2) = kSizeN * kSizeK
  /\ length (St.b r.2) = kSizeK * kSizeM.
Proof.
  intros Hb Hmax Hdist H Hver r. subst r.
  destruct (operands_of_run (DT := int_DataType it) rt env prog args H Hver)
    as (-> & -> & _).
  assert (Hconv : forall v : Z,
            (exists x : Z, (1 <= x <= 10)%Z /\ v = wrap it x) ->
            (1 <= v <= 10)%Z).
  { intros v (x & Hx & ->). rewrite wrap_in_range; [done..|].
    unfold in_range. apply andb_true_iff.
    split; apply Z.leb_le; [|lia].
    unfold it_min. destruct (it_signed it); [|lia].
    assert (0 < 2 ^ (it_bits it - 1))%Z by (apply Z.pow_pos_nonneg; lia).
    lia. }
  unfold generated_a, generated_b.
  rewrite !(length_draws (DT := int_DataType it)).
  split; [|split; [|done]].
  - eapply Forall_impl; [|exact Hconv].
    apply (draws_Forall (DT := int_DataType it)
             (fun x : Z => (1 <= x <= 10)%Z)), Hdist.
  - eapply Forall_impl; [|exact Hconv].
    apply (draws_Forall (DT := int_DataType it)
             (fun x : Z => (1 <= x <= 10)%Z)), Hdist.
Qed.

Lemma integer_operands_in_interval_witness :
  let r := Example.run_int Example.good ∅ ["RunHardware.exe"] in
  Forall (fun v => (1 <= v <= 10)%Z) (St.a r.2)
  /\ Forall (fun v => (1 <= v <= 10)%Z) (St.b r.2).
Proof.
  destruct (integer_operands_in_interval int_ Example.cfg Example.lcg
              Example.good ∅ "RunHardware.exe" [])
    as (Ha & Hb & _).
  - reflexivity.
  - vm_compute. discriminate.
  - intros g. cbn. change (10 - 1 + 1)%Z with 10%Z.
    pose proof (Z.mod_pos_bound ((16807 * g) mod 2147483647) 10 eq_refl).
    lia.
  - reflexivity.
  - reflexivity.
  - split; [exact Ha | exact Hb].
Defined.

(** ** The three stages of a run *)

Section Stages.
Context {T : Type}.
Implicit Type tr : list (action T).

Lemma staged_mono p hi tr :
  p <= hi -> staged p tr = true -> staged hi tr = true.
Proof.
  destruct tr as [|x tr]; intros Hp; [done|].
  cbn [staged]. destruct (stage x) as [q|].
  - rewrite !andb_true_iff, !Nat.leb_le. intros [Hq H]. split; [lia|done].
  - revert p hi Hp. induction tr as [|y tr IH]; intros p hi Hp; [done|].
    cbn [staged]. destruct (stage y) as [q|]; [|by apply IH].
    rewrite !andb_true_iff, !Nat.leb_le. intros [Hq H]. split; [lia|done].
Qed.

Lemma staged_replicate_app p hi n x tr :
  stage x = Some p -> (p <=? hi) = true ->
  staged p tr = true -> staged hi (replicate n x ++ tr) = true.
Proof.
  intros Hx Hp H. apply Nat.leb_le in Hp.
  apply (staged_mono p); [done|]. clear Hp.
  induction n as [|n IH]; [done|].
  cbn [replicate app staged]. by rewrite Hx, Nat.leb_refl, IH.
Qed.

Lemma staged_bound hi tr k y q :
  staged hi tr = true -> tr !! k = Some y -> stage y = Some q -> q <= hi.
Proof.
  revert hi k. induction tr as [|z tr IH]; intros hi k H Hk Hq.
  { by rewrite lookup_nil in Hk. }
  cbn [staged] in H. destruct k as [|k]; cbn in Hk.
  - injection Hk as ->. rewrite Hq in H.
    apply andb_true_iff in H as [H _]. by apply Nat.leb_le.
  - destruct (stage z) as [r|]; [|by apply (IH hi k)].
    apply andb_true_iff in H as [Hr H]. apply Nat.leb_le in Hr.
    specialize (IH r k H Hk Hq). lia.
Qed.

(** What [staged] decides: of two actions of a trace, the one that
    is listed second, which happened first, does not belong to a
    later stage. *)
Lemma staged_sound hi tr i j x y p q :
  staged hi tr = true ->
  i < j -> tr !! i = Some x -> tr !! j = Some y ->
  stage x = Some p -> stage y = Some q -> q <= p.
Proof.
  revert hi i j. induction tr as [|z tr IH]; intros hi i j H Hij Hi Hj Hp Hq.
  { by rewrite lookup_nil in Hi. }
  cbn [staged] in H. destruct j as [|j]; [lia|]. cbn in Hj.
  destruct i as [|i]; cbn in Hi.
  - injection Hi as ->. rewrite Hp in H.
    apply andb_true_iff in H as [_ H]. by apply (staged_bound p tr j y).
  - destruct (stage z) as [r|].
    + apply andb_true_iff in H as [_ H].
      apply (IH r i j); [done|lia|done..].
    + apply (IH hi i j); [done|lia|done..].
Qed.
End Stages.

(** Evaluation of [staged] on the trace of a run *)
Ltac staged_eval :=
  unfold mismatch_report;
  repeat (cbn [staged stage Nat.leb andb rev map app];
          first
            [ reflexivity
            | eapply staged_replicate_app; [reflexivity | reflexivity | ] ]).

(** X11: a run goes through three stages in order and never back: it
    prepares the environment and the host memory, then holds the
    session with the accelerator, then checks the result.  Of two
    actions of a run the earlier one never belongs to a later stage;
    in particular the environment is final and the operands are drawn
    and packed before the context is created, and the reference is
    computed after the last call into the runtime.  The check is
    reached exactly in the verifying runs in which no call raises. *)
Theorem stages_in_order (T : Type) (DT : DataType T) (cfg : Config)
    (rnd : Random dt_sample) (rt : Runtime T) (env : gmap string string)
    (prog : string) (args : list string) :
  let r := run rt env (prog :: args) in
  (forall i j x y p q,
     i < j ->
     rev (St.trace r.2) !! i = Some x -> rev (St.trace r.2) !! j = Some y ->
     stage x = Some p -> stage y = Some q -> p <= q)
  /\ (existsb is_reference (St.trace r.2) = true <->
        accepted args = true /\ selects_verify args = true
        /\ raised_of (St.trace r.2) = []).
Proof.
  intros r. subst r.
  enough (staged 2 (St.trace (run rt env (prog :: args)).2) = true
          /\ (existsb is_reference (St.trace (run rt env (prog :: args)).2)
              = true <->
              accepted args = true /\ selects_verify args = true
              /\ raised_of (St.trace (run rt env (prog :: args)).2) = []))
    as [Hst Href].
  { split; [|done]. intros i j x y p q Hij Hi Hj Hp Hq.
    rewrite rev_alt in Hi, Hj.
    apply reverse_lookup_Some in Hi as [Hi Hil], Hj as [Hj Hjl].
    eapply (staged_sound 2 _ _ _ y x q p Hst); [|done..]. lia. }
  destruct (accepted args) eqn:H.
  - run_cases;
      (split;
         [ staged_eval
         | trace_eval; split;
           [ intros E;
             first [discriminate E | by repeat split]
           | intros (_ & V & E);
             first [reflexivity | discriminate V | discriminate E] ] ]).
  - rewrite (run_rejected rt env prog args H). cbn [snd].
    unfold rejected_state, parsed_state. cbn [St.trace St.set_trace].
    split; [by destruct (_ && _)|].
    split; [by destruct (_ && _)|by intros [[=] _]].
Qed.

(** ** What comes back from the device *)

(** X12: in a verifying run in which no call into the runtime raises,
    the kernel is launched once, on the buffers as the three copies to
    the device left them, and the copy of line 116 replaces the whole
    of [cMem] by what the kernel left in the output buffer: its
    [kSizeN * kSizeM / kMemoryWidth] packs of [kMemoryWidth] elements
    each.  Nothing of the zeros that [cMem] held before remains, so
    the loop checks the output of the kernel and nothing else. *)
Theorem result_is_kernel_output (T : Type) (DT : DataType T) (cfg : Config)
    (rnd : Random dt_sample) (rt : Runtime T) (env : gmap string string)
    (prog : string) (args : list string) :
  accepted args = true ->
  selects_verify args = true ->
  let r := run rt env (prog :: args) in
  raised_of (St.trace r.2) = [] ->
  exists da db dc t t' out,
    launches_of (St.trace r.2) = [(da, db, dc)]
    /\ uploads_of (St.trace r.2) = [(aDevice, da); (bDevice, db); (cDevice, dc)]
    /\ rt_ExecuteTask rt da db dc = Ok (t, t', out)
    /\ St.cMem r.2 = packs_of (kSizeN * kSizeM / kMemoryWidth) out
    /\ length (St.cMem r.2) = kSizeN * kSizeM / kMemoryWidth
    /\ Forall (fun pack => length pack = kMemoryWidth) (St.cMem r.2).
Proof.
  intros H Hver r. subst r.
  run_cases; trace_eval; intros E; try discriminate E; clear E.
  all: repeat match goal with p : (_ * _)%type |- _ => destruct p end.
  all: do 6 eexists; trace_eval; split; [reflexivity|]; split; [reflexivity|];
    split; [eassumption|]; lengths; split; [reflexivity|];
    split; [reflexivity|].
  all: apply Forall_forall; intros pack Hin; unfold packs_of in Hin;
    apply list_elem_of_fmap in Hin as (? & -> & _);
    by rewrite length_map, length_seq.
Qed.

Lemma result_is_kernel_output_witness :
  St.cMem (Example.run_int Example.good ∅ ["RunHardware.exe"]).2
  = [[48; 84]; [42; 90]]%Z.
Proof.
  destruct (result_is_kernel_output Z Example.int_dt Example.cfg Example.lcg
              Example.good ∅ "RunHardware.exe" [] eq_refl eq_refl)
    as (da & db & dc & t & t' & out & Hl & _ & Hk & Hc & _).
  - vm_compute. reflexivity.
  - vm_compute in Hl. injection Hl as <- <- <-.
    vm_compute in Hk. injection Hk as _ _ <-.
    refine (eq_trans Hc _). vm_compute. reflexivity.
Defined.
